(** * Verification of youtube_transcript_downloader.py

    Shallow embedding of [src/youtube_transcript_downloader.py] (the two
    channel-specific copies, [alex_becker_transcript_downloader.py] and
    [rob_walling_transcript_downloader.py], contain the same functions).

    Python [str] values are modelled as [list ascii]: sequences of code
    points restricted to the Latin-1 range 0..255.  Whitespace ([\s],
    [str.strip()], [str.isspace()]) is Python's Unicode whitespace on that
    range, and [\d] is ASCII 0..9 (Latin-1 has no other decimal digits). *)

From Stdlib Require Import List Ascii String Arith Lia ZArith Bool.
Import ListNotations.

Definition str := list ascii.
Definition s2l : string -> str := list_ascii_of_string.

(** ** Characters and small string helpers *)

Definition chr (n : nat) : ascii := ascii_of_nat n.
Definition NL : ascii := chr 10.
Definition TAB : ascii := chr 9.

(** Python's [str.isspace()] / regex [\s] on code points 0..255. *)
Definition is_space (c : ascii) : bool :=
  match nat_of_ascii c with
  | 9 | 10 | 11 | 12 | 13 | 28 | 29 | 30 | 31 | 32 | 133 | 160 => true
  | _ => false
  end.

(** Regex [\d]. *)
Definition is_digit (c : ascii) : bool :=
  (48 <=? nat_of_ascii c) && (nat_of_ascii c <=? 57).

Definition str_eqb (a b : str) : bool :=
  if list_eq_dec ascii_dec a b then true else false.

Fixpoint startswith (p s : str) : bool :=
  match p, s with
  | [], _ => true
  | c :: p', d :: s' => Ascii.eqb c d && startswith p' s'
  | _ :: _, [] => false
  end.

Definition endswith (p s : str) : bool := startswith (rev p) (rev s).

(** [s.split(sep)] for a one-character separator. *)
Fixpoint split_on (sep : ascii) (s : str) : list str :=
  match s with
  | [] => [[]]
  | c :: r =>
      let parts := split_on sep r in
      if Ascii.eqb c sep then [] :: parts
      else match parts with
           | p :: ps => (c :: p) :: ps
           | [] => [[c]]
           end
  end.

(** [s.split(sep, 1)]. *)
Fixpoint split_once (sep : ascii) (s : str) : list str :=
  match s with
  | [] => [[]]
  | c :: r =>
      if Ascii.eqb c sep then [[]; r]
      else match split_once sep r with
           | p :: ps => (c :: p) :: ps
           | [] => [[c]]
           end
  end.

Fixpoint lstrip_by (p : ascii -> bool) (s : str) : str :=
  match s with
  | c :: r => if p c then lstrip_by p r else s
  | [] => []
  end.

(** [s.strip(chars)] for a character predicate. *)
Definition strip_by (p : ascii -> bool) (s : str) : str :=
  rev (lstrip_by p (rev (lstrip_by p s))).

(** [s.strip()]. *)
Definition strip (s : str) : str := strip_by is_space s.

(** [sep.join(xs)]. *)
Fixpoint join (sep : str) (xs : list str) : str :=
  match xs with
  | [] => []
  | [x] => x
  | x :: r => x ++ sep ++ join sep r
  end.

(** ** Regular-expression substitution

    [re.sub(pattern, "", s)] for a pattern that never matches the empty
    string: scanning left to right, at each position the matcher either
    returns the length of the leftmost match starting there (which is
    deleted, scanning resumes after it) or [None] (the character is kept).
    The fuel is the length of the string; each step consumes at least one
    character. *)
Fixpoint re_sub_fuel (fuel : nat) (m : str -> option nat) (s : str) : str :=
  match fuel with
  | O => s
  | S f =>
      match s with
      | [] => []
      | c :: r =>
          match m s with
          | Some n => re_sub_fuel f m (skipn n s)
          | None => c :: re_sub_fuel f m r
          end
      end
  end.

Definition re_sub (m : str -> option nat) (s : str) : str :=
  re_sub_fuel (List.length s) m s.

(** Fixed-width pattern atoms: a literal character or [\d]. *)
Inductive atom := Lit (c : ascii) | Digit.

Fixpoint match_atoms (ps : list atom) (s : str) : bool :=
  match ps, s with
  | [], _ => true
  | Lit c :: ps', d :: s' => Ascii.eqb c d && match_atoms ps' s'
  | Digit :: ps', d :: s' => is_digit d && match_atoms ps' s'
  | _ :: _, [] => false
  end.

Definition L (c : string) : atom :=
  match c with String a _ => Lit a | EmptyString => Digit end.

(** [\d{2}:\d{2}:\d{2}\.\d{3}] *)
Definition clock_pat : list atom :=
  [Digit; Digit; L ":"; Digit; Digit; L ":"; Digit; Digit; L ".";
   Digit; Digit; Digit].

(** [<\d{2}:\d{2}:\d{2}\.\d{3}>] *)
Definition tag_pat : list atom := [L "<"] ++ clock_pat ++ [L ">"].

Definition m_tag (s : str) : option nat :=
  if match_atoms tag_pat s then Some 14 else None.

(** [</?c>] *)
Definition m_c (s : str) : option nat :=
  if startswith (s2l "<c>") s then Some 3
  else if startswith (s2l "</c>") s then Some 4
  else None.

Fixpoint nonspace_prefix (s : str) : nat :=
  match s with
  | c :: r => if is_space c then 0 else S (nonspace_prefix r)
  | [] => 0
  end.

(** [kw\S+] (greedy). *)
Definition m_kw (kw : str) (s : str) : option nat :=
  if startswith kw s then
    match nonspace_prefix (skipn (List.length kw) s) with
    | 0 => None
    | n => Some (List.length kw + n)
    end
  else None.

Definition ALIGN : str := s2l "align:".
Definition POSITION : str := s2l "position:".

(** [re.match(r"^\d{2}:\d{2}:\d{2}\.\d{3}\s*-->", line)] *)
Definition is_ts_line (line : str) : bool :=
  match_atoms clock_pat line &&
  startswith (s2l "-->") (lstrip_by is_space (skipn 12 line)).

(** ** [clean_vtt] *)

(** The per-line part of the loop body: [None] for every [continue]
    before the dedup test, otherwise the stripped [text]. *)
Definition line_text (line : str) : option str :=
  if startswith (s2l "WEBVTT") line then None
  else if startswith (s2l "Kind:") line || startswith (s2l "Language:") line
  then None
  else if is_ts_line line then None
  else if str_eqb (strip line) [] then None
  else
    let text := re_sub m_tag line in
    let text := re_sub m_c text in
    let text := re_sub (m_kw ALIGN) text in
    let text := re_sub (m_kw POSITION) text in
    let text := strip text in
    match text with
    | [] => None
    | _ => Some text
    end.

(** One iteration of [for line in lines], with state [(cleaned, seen)]. *)
Definition clean_step (acc : list str * list str) (line : str)
  : list str * list str :=
  let '(cleaned, seen) := acc in
  match line_text line with
  | None => acc
  | Some text =>
      if existsb (str_eqb text) seen then acc
      else (cleaned ++ [text], text :: seen)
  end.

Definition clean_lines (vtt_text : str) : list str :=
  fst (fold_left clean_step (split_on NL vtt_text) ([], [])).

Definition clean_vtt (vtt_text : str) : str :=
  join (s2l " ") (clean_lines vtt_text).

(** Scenario A input. *)
Definition nl : str := [NL].
Definition scenarioA : str :=
  s2l "WEBVTT" ++ nl ++ nl ++
  s2l "00:00:00.000 --> 00:00:02.000" ++ nl ++ s2l "Hello world" ++ nl ++ nl ++
  s2l "00:00:01.500 --> 00:00:03.000" ++ nl ++ s2l "Hello world" ++ nl ++
  s2l "Next line" ++ nl.

(** ** [sanitize_filename] *)

(** The character class of the source regex: the characters with codes
    60 62 58 34 47 92 124 63 42 (less-than, greater-than, colon, double
    quote, slash, backslash, bar, question mark, star). *)
Definition bad_char (c : ascii) : bool :=
  existsb (Ascii.eqb c) (map chr [60; 62; 58; 34; 47; 92; 124; 63; 42]).

Definition sanitize_filename (title : str) : str :=
  let safe := filter (fun c => negb (bad_char c)) title in
  let safe := strip_by (fun c => Ascii.eqb c "."%char || Ascii.eqb c " "%char) safe in
  match safe with
  | [] => s2l "untitled"
  | _ => firstn 200 safe
  end.

Definition DQ : str := [chr 34].
Definition scenarioD : str := s2l "A/B: " ++ DQ ++ s2l "Test" ++ DQ ++ s2l "?*".

(** ** [download_subtitle]

    The scratch directory is a list of (file name, content) pairs in
    [os.listdir] order.  The external tool call is an input: it either times
    out (after possibly writing partial files) or finishes having written
    some files; a file written over an existing name replaces it. *)

Definition scratch := list (str * str).

Inductive tool_run :=
| Timeout (partial : list (str * str))
| Finished (written : list (str * str)).

Definition write_file (d : scratch) (f : str * str) : scratch :=
  filter (fun e => negb (str_eqb (fst e) (fst f))) d ++ [f].

Definition write_files (d : scratch) (fs : list (str * str)) : scratch :=
  fold_left write_file fs d.

Definition files_written (run : tool_run) : list (str * str) :=
  match run with Timeout w | Finished w => w end.

Definition after_tool (d : scratch) (run : tool_run) : scratch :=
  write_files d (files_written run).

Definition path_exists (name : str) (d : scratch) : bool :=
  existsb (fun e => str_eqb (fst e) name) d.

Definition read_file (name : str) (d : scratch) : str :=
  match find (fun e => str_eqb (fst e) name) d with
  | Some (_, c) => c
  | None => []
  end.

Definition SUBTITLE_LANG : str := s2l "en".
Definition VTT : str := s2l ".vtt".

(** The search for [vtt_path]: [{id}.en.vtt], then [{id}.en-orig.vtt],
    then the first listed file starting with the id and ending in [.vtt]. *)
Definition locate_vtt (video_id : str) (d : scratch) : option str :=
  let suffixes := [s2l "." ++ SUBTITLE_LANG ++ VTT;
                   s2l "." ++ SUBTITLE_LANG ++ s2l "-orig" ++ VTT] in
  match find (fun sfx => path_exists (video_id ++ sfx) d) suffixes with
  | Some sfx => Some (video_id ++ sfx)
  | None =>
      option_map fst
        (find (fun e => startswith video_id (fst e) && endswith VTT (fst e)) d)
  end.

(** [download_subtitle] on the scratch directory: the result and the
    directory afterwards. *)
Definition download_subtitle_pure (video_id : str) (run : tool_run) (d : scratch)
  : option str * scratch :=
  match run with
  | Timeout w => (None, write_files d w)
  | Finished w =>
      let d := write_files d w in
      match locate_vtt video_id d with
      | None => (None, d)
      | Some vtt_path =>
          let vtt_content := read_file vtt_path d in
          let d' := filter (fun e => negb (startswith video_id (fst e))) d in
          (Some (clean_vtt vtt_content), d')
      end
  end.

(** ** The run: a state monad with [sys.exit]

    The world records what is written to stderr, the file-system effects in
    order, the scratch directory, the pending outcomes of the per-video tool
    calls, the outcome of the listing call and the clock.  Console progress
    on stdout is not modelled. *)

Record manifest_entry := {
  e_id : str;
  e_title : str;
  has_transcript : bool
}.

Record manifest := {
  channel_url : str;
  channel_name : str;
  download_date : str;
  total_videos : nat;
  transcripts_downloaded : nat;
  transcripts_failed : nat;
  videos : list manifest_entry
}.

Inductive effect :=
| MakeDirs (path : str)
| OpenCombined (path : str)
| CombinedWrite (text : str)
| WriteFile (path : str) (content : str)
| Sleep (secs : nat)
| RemoveDir (path : str)
| WriteManifest (path : str) (m : manifest).

Record completed_process := {
  returncode : Z;
  stdout : str;
  stderr : str
}.

Record world := {
  w_stderr : list str;
  w_effects : list effect;
  w_scratch : scratch;
  w_tools : list tool_run;
  w_listing : completed_process;
  w_now : str
}.

Definition set_effects (w : world) (es : list effect) : world :=
  {| w_stderr := w_stderr w; w_effects := es; w_scratch := w_scratch w;
     w_tools := w_tools w; w_listing := w_listing w; w_now := w_now w |}.

Definition set_stderr (w : world) (err : list str) : world :=
  {| w_stderr := err; w_effects := w_effects w; w_scratch := w_scratch w;
     w_tools := w_tools w; w_listing := w_listing w; w_now := w_now w |}.

Definition set_retrieval (w : world) (d : scratch) (ts : list tool_run) : world :=
  {| w_stderr := w_stderr w; w_effects := w_effects w; w_scratch := d;
     w_tools := ts; w_listing := w_listing w; w_now := w_now w |}.

Inductive outcome (A : Type) := Done (a : A) | Exit (code : Z).
Arguments Done {A} a.
Arguments Exit {A} code.

Definition M (A : Type) := world -> outcome A * world.

Definition ret {A} (a : A) : M A := fun w => (Done a, w).

Definition bind {A B} (m : M A) (k : A -> M B) : M B :=
  fun w =>
    match m w with
    | (Done a, w') => k a w'
    | (Exit c, w') => (Exit c, w')
    end.

Notation "x <- m ;; k" := (bind m (fun x => k))
  (at level 61, m at next level, right associativity).

Definition emit (e : effect) : M unit :=
  fun w => (Done tt, set_effects w (w_effects w ++ [e])).

(** [print(s, file=sys.stderr)] *)
Definition eprint (s : str) : M unit :=
  fun w => (Done tt, set_stderr w (w_stderr w ++ [s ++ nl])).

Definition sys_exit {A} (code : Z) : M A := fun w => (Exit code, w).

Definition strftime : M str := fun w => (Done (w_now w), w).

(** [subprocess.run] of the listing command. *)
Definition run_listing (channel_url : str) : M completed_process :=
  fun w => (Done (w_listing w), w).

(** [download_subtitle(video_id, temp_dir)]: consumes the next tool
    outcome (a tool that is never reached writes nothing). *)
Definition pop_tool (ts : list tool_run) : tool_run * list tool_run :=
  match ts with
  | [] => (Finished [], [])
  | t :: ts => (t, ts)
  end.

Definition download_subtitle (video_id : str) : M (option str) :=
  fun w =>
    let '(run, rest) := pop_tool (w_tools w) in
    let '(r, d') := download_subtitle_pure video_id run (w_scratch w) in
    (Done r, set_retrieval w d' rest).

(** [try: os.rmdir(temp_dir) except OSError: pass] *)
Definition rmdir_tolerant (path : str) : M unit :=
  fun w =>
    match w_scratch w with
    | [] => (Done tt, set_effects w (w_effects w ++ [RemoveDir path]))
    | _ => (Done tt, w)
    end.

(** ** [get_all_videos] *)

Definition parse_line (line : str) : list (str * str) :=
  let line := strip line in
  match line with
  | [] => []
  | _ =>
      match split_once TAB line with
      | [video_id; title] => [(strip video_id, strip title)]
      | _ => []
      end
  end.

Definition parse_listing (out : str) : list (str * str) :=
  flat_map parse_line (split_on NL (strip out)).

Definition list_error (err : str) : str :=
  s2l "[ERROR] Failed to list channel videos:" ++ nl ++ err.

Definition get_all_videos (channel_url : str) : M (list (str * str)) :=
  result <- run_listing channel_url;;
  if negb (Z.eqb (returncode result) 0) then
    _ <- eprint (list_error (stderr result));;
    sys_exit 1
  else ret (parse_listing (stdout result)).

(** ** [main] *)

Fixpoint nat_digits (fuel n : nat) (acc : str) : str :=
  match fuel with
  | O => acc
  | S f =>
      let acc := chr (48 + n mod 10) :: acc in
      if n <? 10 then acc else nat_digits f (n / 10) acc
  end.

(** [str(n)] *)
Definition show_nat (n : nat) : str := nat_digits (S n) n [].

(** [os.path.join(a, b)] *)
Definition path_join (a b : str) : str :=
  if startswith (s2l "/") b then b
  else match a with
       | [] => b
       | _ => if endswith (s2l "/") a then a ++ b else a ++ s2l "/" ++ b
       end.

Definition EQ80 : str := repeat "="%char 80.
Definition WATCH_URL : str := s2l "https://www.youtube.com/watch?v=".

Record cli_args := {
  arg_channel_url : str;
  arg_output_dir : str;
  arg_combined_file : str;
  arg_channel_name : option str
}.

(** [args.channel_name or channel_url.split("@")[-1].split("/")[0]] *)
Definition channel_name_of (a : cli_args) : str :=
  match arg_channel_name a with
  | Some (_ :: _ as n) => n
  | _ => hd [] (split_on "/"%char (last (split_on "@"%char (arg_channel_url a)) []))
  end.

(** The four [combined.write] calls of the header. *)
Definition header_writes (name : str) (total : nat) (now url : str) : list str :=
  [s2l "# " ++ name ++ s2l " - Complete YouTube Channel Transcripts" ++ nl;
   s2l "# Total videos found: " ++ show_nat total ++ nl;
   s2l "# Downloaded: " ++ now ++ nl;
   s2l "# Source: " ++ url ++ nl ++ nl].

(** The six [combined.write] calls of one section. *)
Definition section_writes (video_id title transcript : str) : list str :=
  [nl ++ nl ++ EQ80 ++ nl;
   s2l "TITLE: " ++ title ++ nl;
   s2l "VIDEO ID: " ++ video_id ++ nl;
   s2l "URL: " ++ WATCH_URL ++ video_id ++ nl;
   EQ80 ++ nl ++ nl;
   transcript].

(** The content of an individual transcript file. *)
Definition individual_text (video_id title transcript : str) : str :=
  s2l "Title: " ++ title ++ nl ++
  s2l "Video ID: " ++ video_id ++ nl ++
  s2l "URL: " ++ WATCH_URL ++ video_id ++ nl ++
  EQ80 ++ nl ++ nl ++
  transcript.

Definition individual_path (output_dir video_id title : str) : str :=
  path_join output_dir
    (sanitize_filename title ++ s2l " [" ++ video_id ++ s2l "].txt").

Fixpoint emit_all (es : list effect) : M unit :=
  match es with
  | [] => ret tt
  | e :: r => _ <- emit e;; emit_all r
  end.

Record run_state := {
  success_count : nat;
  fail_count : nat;
  failed_videos : list (str * str)
}.

Definition init_state : run_state :=
  {| success_count := 0; fail_count := 0; failed_videos := [] |}.

(** The body of [for idx, (video_id, title) in enumerate(videos, 1)]. *)
Definition process_video (output_dir : str) (idx : nat) (v : str * str)
    (st : run_state) : M run_state :=
  let '(video_id, title) := v in
  transcript <- download_subtitle video_id;;
  st' <- match transcript with
         | Some ((_ :: _) as t) =>
             _ <- emit (WriteFile (individual_path output_dir video_id title)
                                  (individual_text video_id title t));;
             _ <- emit_all (map CombinedWrite (section_writes video_id title t));;
             ret {| success_count := S (success_count st);
                    fail_count := fail_count st;
                    failed_videos := failed_videos st |}
         | _ =>
             ret {| success_count := success_count st;
                    fail_count := S (fail_count st);
                    failed_videos := failed_videos st ++ [(video_id, title)] |}
         end;;
  _ <- (if idx mod 10 =? 0 then emit (Sleep 2) else ret tt);;
  ret st'.

Fixpoint run_loop (output_dir : str) (idx : nat) (vs : list (str * str))
    (st : run_state) : M run_state :=
  match vs with
  | [] => ret st
  | v :: r => st' <- process_video output_dir idx v st;; run_loop output_dir (S idx) r st'
  end.

Definition pair_eqb (a b : str * str) : bool :=
  str_eqb (fst a) (fst b) && str_eqb (snd a) (snd b).

Definition manifest_entries (vs : list (str * str)) (failed : list (str * str))
  : list manifest_entry :=
  map (fun '(vid, title) =>
         {| e_id := vid; e_title := title;
            has_transcript := negb (existsb (pair_eqb (vid, title)) failed) |})
      vs.

Definition main (args : cli_args) : M run_state :=
  let channel_url := arg_channel_url args in
  let output_dir := arg_output_dir args in
  let combined_file := arg_combined_file args in
  let name := channel_name_of args in
  videos <- get_all_videos channel_url;;
  let total := List.length videos in
  _ <- emit (MakeDirs output_dir);;
  let temp_dir := path_join output_dir (s2l ".tmp") in
  _ <- emit (MakeDirs temp_dir);;
  _ <- emit (OpenCombined combined_file);;
  now <- strftime;;
  _ <- emit_all (map CombinedWrite (header_writes name total now channel_url));;
  st <- run_loop output_dir 1 videos init_state;;
  _ <- rmdir_tolerant temp_dir;;
  date <- strftime;;
  let manifest_path := path_join output_dir (s2l "_manifest.json") in
  _ <- emit (WriteManifest manifest_path
              {| channel_url := channel_url;
                 channel_name := name;
                 download_date := date;
                 total_videos := total;
                 transcripts_downloaded := success_count st;
                 transcripts_failed := fail_count st;
                 videos := manifest_entries videos (failed_videos st) |});;
  ret st.

(** The text written through the [combined] handle. *)
Definition combined_text (es : list effect) : str :=
  List.concat (map (fun e => match e with CombinedWrite t => t | _ => [] end) es).

(** ** Scenario B: three videos, the second times out *)

Definition vttB (line : str) : str :=
  s2l "WEBVTT" ++ nl ++ nl ++ s2l "00:00:00.000 --> 00:00:02.000" ++ nl ++
  line ++ nl.

Definition videoB1 : str * str := (s2l "v1", s2l "Title one").
Definition videoB2 : str * str := (s2l "v2", s2l "Title two").
Definition videoB3 : str * str := (s2l "v3", s2l "Title three").

Definition listingB : completed_process :=
  {| returncode := 0;
     stdout := fst videoB1 ++ [TAB] ++ snd videoB1 ++ nl ++
               fst videoB2 ++ [TAB] ++ snd videoB2 ++ nl ++
               fst videoB3 ++ [TAB] ++ snd videoB3 ++ nl;
     stderr := [] |}.

Definition toolsB : list tool_run :=
  [Finished [(s2l "v1.en.vtt", vttB (s2l "first talk"))];
   Timeout [];
   Finished [(s2l "v3.en.vtt", vttB (s2l "third talk"))]].

Definition worldB : world :=
  {| w_stderr := []; w_effects := []; w_scratch := []; w_tools := toolsB;
     w_listing := listingB; w_now := s2l "2026-10-15 12:00:00" |}.

Definition argsB : cli_args :=
  {| arg_channel_url := s2l "https://www.youtube.com/@Chan/videos";
     arg_output_dir := s2l "transcripts";
     arg_combined_file := s2l "all_transcripts.txt";
     arg_channel_name := None |}.


(** ** Vocabulary of the properties *)

(** [s] occurs as a contiguous piece of [x]. *)
Definition substr (s x : str) : Prop := exists a b, x = a ++ s ++ b.

(** [x] contains a match of [kw\S+]. *)
Definition has_token (kw x : str) : Prop :=
  exists d, is_space d = false /\ substr (kw ++ [d]) x.

(** [x] contains a match of [<\d{2}:\d{2}:\d{2}\.\d{3}>]. *)
Definition has_timing_tag (x : str) : Prop :=
  exists tag, List.length tag = 14 /\ match_atoms tag_pat tag = true /\ substr tag x.

(** The candidate texts of the lines, before deduplication. *)
Definition line_texts (lines : list str) : list str :=
  flat_map (fun l => match line_text l with Some t => [t] | None => [] end) lines.

(** First-occurrence deduplication against a set of already seen texts. *)
Fixpoint dedup_from (seen : list str) (xs : list str) : list str :=
  match xs with
  | [] => []
  | x :: r =>
      if existsb (str_eqb x) seen then dedup_from seen r
      else x :: dedup_from (x :: seen) r
  end.

(** No match of [m] starts at any position of [s]. *)
Fixpoint no_match_b (m : str -> option nat) (s : str) : bool :=
  match s with
  | [] => true
  | _ :: r => match m s with None => no_match_b m r | Some _ => false end
  end.

(** Python truthiness of [download_subtitle]'s result. *)
Definition truthy (r : option str) : bool :=
  match r with Some (_ :: _) => true | _ => false end.

(** The results of the successive [download_subtitle] calls of a loop over
    [vs], with the scratch directory and pending tool outcomes after it. *)
Fixpoint retrieve_all (d : scratch) (ts : list tool_run) (vs : list (str * str))
  : list (option str) * (scratch * list tool_run) :=
  match vs with
  | [] => ([], (d, ts))
  | v :: r =>
      let '(run, ts') := pop_tool ts in
      let '(res, d') := download_subtitle_pure (fst v) run d in
      let '(rs, fin) := retrieve_all d' ts' r in
      (res :: rs, fin)
  end.

Definition video_effects (output_dir : str) (idx : nat) (v : str * str)
    (r : option str) : list effect :=
  match r with
  | Some ((_ :: _) as t) =>
      WriteFile (individual_path output_dir (fst v) (snd v))
                (individual_text (fst v) (snd v) t)
      :: map CombinedWrite (section_writes (fst v) (snd v) t)
  | _ => []
  end ++ (if idx mod 10 =? 0 then [Sleep 2] else []).

Fixpoint loop_effects (output_dir : str) (idx : nat) (vs : list (str * str))
    (rs : list (option str)) : list effect :=
  match vs, rs with
  | v :: vs', r :: rs' => video_effects output_dir idx v r ++ loop_effects output_dir (S idx) vs' rs'
  | _, _ => []
  end.

(** The videos whose transcript was obtained, with it, in loop order. *)
Definition successes (vs : list (str * str)) (rs : list (option str))
  : list ((str * str) * str) :=
  flat_map (fun p => match snd p with
                     | Some ((_ :: _) as t) => [(fst p, t)]
                     | _ => []
                     end) (combine vs rs).

Definition failed_of (vs : list (str * str)) (rs : list (option str)) : list (str * str) :=
  map fst (filter (fun p => negb (truthy (snd p))) (combine vs rs)).

Definition loop_state (st : run_state) (vs : list (str * str)) (rs : list (option str))
  : run_state :=
  {| success_count := success_count st + List.length (filter truthy rs);
     fail_count := fail_count st + List.length (filter (fun r => negb (truthy r)) rs);
     failed_videos := failed_videos st ++ failed_of vs rs |}.

Definition section_text (p : (str * str) * str) : str :=
  List.concat (section_writes (fst (fst p)) (snd (fst p)) (snd p)).

(** No character of [t] is whitespace. *)
Definition no_space (t : str) : Prop := forall c, In c t -> is_space c = false.

(** A caption line with a timing tag nested in another one. *)
Definition nested_tag : str := s2l "<<00:00:00.000>00:00:00.000>".
Definition TAG0 : str := s2l "<00:00:00.000>".

(** A single line of plain text, as [clean_vtt] produces one: no newline,
    non-empty, no surrounding whitespace, not a header, metadata or
    timestamp line, and no match of any of the four stripped patterns. *)
Definition plain_text_line (s : str) : Prop :=
  existsb (Ascii.eqb NL) s = false /\
  (match s with c :: _ => is_space c = false | [] => False end) /\
  is_space (last s " "%char) = false /\
  startswith (s2l "WEBVTT") s = false /\
  startswith (s2l "Kind:") s = false /\
  startswith (s2l "Language:") s = false /\
  is_ts_line s = false /\
  no_match_b m_tag s = true /\ no_match_b m_c s = true /\
  no_match_b (m_kw ALIGN) s = true /\ no_match_b (m_kw POSITION) s = true.

(** The run state after one video, by the truthiness of its transcript. *)
Definition step_state (st : run_state) (v : str * str) (r : option str) : run_state :=
  if truthy r then
    {| success_count := S (success_count st); fail_count := fail_count st;
       failed_videos := failed_videos st |}
  else
    {| success_count := success_count st; fail_count := S (fail_count st);
       failed_videos := failed_videos st ++ [v] |}.

(** The file-system effects of a run of [main] whose listing succeeded. *)
Definition main_effects (args : cli_args) (now : str) (vs : list (str * str))
    (rs : list (option str)) (d' : scratch) : list effect :=
  let output_dir := arg_output_dir args in
  let temp_dir := path_join output_dir (s2l ".tmp") in
  let st := loop_state init_state vs rs in
  [MakeDirs output_dir; MakeDirs temp_dir; OpenCombined (arg_combined_file args)] ++
  map CombinedWrite (header_writes (channel_name_of args) (List.length vs) now
                       (arg_channel_url args)) ++
  loop_effects output_dir 1 vs rs ++
  (match d' with [] => [RemoveDir temp_dir] | _ => [] end) ++
  [WriteManifest (path_join output_dir (s2l "_manifest.json"))
     {| channel_url := arg_channel_url args;
        channel_name := channel_name_of args;
        download_date := now;
        total_videos := List.length vs;
        transcripts_downloaded := success_count st;
        transcripts_failed := fail_count st;
        videos := manifest_entries vs (failed_videos st) |}].

(** The last manifest written. *)
Definition written_manifest (es : list effect) : option manifest :=
  fold_left (fun acc e => match e with WriteManifest _ m => Some m | _ => acc end) es None.

Fixpoint nodup_b (l : list (str * str)) : bool :=
  match l with
  | [] => true
  | x :: r => negb (existsb (pair_eqb x) r) && nodup_b r
  end.

(** A listing call that fails. *)
Definition worldC : world :=
  {| w_stderr := []; w_effects := []; w_scratch := []; w_tools := [];
     w_listing := {| returncode := 1; stdout := [];
                     stderr := s2l "ERROR: Unable to download API page" |};
     w_now := s2l "2026-10-15 12:00:00" |}.

(** A caption file holding only the header and metadata lines. *)
Definition header_only_vtt : str :=
  s2l "WEBVTT" ++ nl ++ s2l "Kind: captions" ++ nl ++ s2l "Language: en" ++ nl ++ nl.

(** ** Vocabulary of the further properties *)



Definition is_sleep (e : effect) : bool :=
  match e with Sleep _ => true | _ => false end.



(** The characters [safe.strip(". ")] removes. *)
Definition dot_or_space (c : ascii) : bool :=
  Ascii.eqb c "."%char || Ascii.eqb c " "%char.

Definition is_remove_dir (e : effect) : bool :=
  match e with RemoveDir _ => true | _ => false end.

(** Scenario B with a file left in the scratch directory by an earlier
    run. *)
Definition worldD : world :=
  {| w_stderr := []; w_effects := []; w_scratch := [(s2l "old.part", [])];
     w_tools := toolsB; w_listing := listingB; w_now := s2l "2026-10-15 12:00:00" |}.

(** * Proofs *)

(** ** Basic facts on strings *)

Lemma str_eqb_eq (a b : str) : str_eqb a b = true <-> a = b.
Proof. unfold str_eqb; destruct (list_eq_dec ascii_dec a b); split; congruence. Qed.

Lemma existsb_str (x : str) (l : list str) : existsb (str_eqb x) l = true <-> In x l.
Proof.
  rewrite existsb_exists; split.
  - intros [y [Hy Heq]]. apply str_eqb_eq in Heq. subst. exact Hy.
  - intros H. exists x. split; [exact H | apply str_eqb_eq; reflexivity].
Qed.

Lemma existsb_str_false (x : str) (l : list str) : existsb (str_eqb x) l = false <-> ~ In x l.
Proof.
  rewrite <- existsb_str. destruct (existsb (str_eqb x) l); split; congruence.
Qed.

(** ** The deduplication loop of [clean_vtt] *)

Lemma fold_clean_step (lines : list str) (cleaned seen : list str) :
  fst (fold_left clean_step lines (cleaned, seen)) =
  cleaned ++ dedup_from seen (line_texts lines).
Proof.
  revert cleaned seen. induction lines as [|l lines IH]; intros cleaned seen.
  - simpl. rewrite app_nil_r. reflexivity.
  - simpl. destruct (clean_step (cleaned, seen) l) as [c' s'] eqn:Hstep.
    unfold clean_step in Hstep. destruct (line_text l) as [t|] eqn:Hl.
    + simpl. destruct (existsb (str_eqb t) seen) eqn:Hs.
      * injection Hstep as <- <-. apply IH.
      * injection Hstep as <- <-. rewrite IH, <- app_assoc. reflexivity.
    + injection Hstep as <- <-. apply IH.
Qed.

Lemma clean_lines_dedup (vtt_text : str) :
  clean_lines vtt_text = dedup_from [] (line_texts (split_on NL vtt_text)).
Proof. unfold clean_lines. rewrite fold_clean_step. reflexivity. Qed.

Lemma dedup_from_ext (s1 s2 xs : list str) :
  (forall x, In x s1 <-> In x s2) -> dedup_from s1 xs = dedup_from s2 xs.
Proof.
  revert s1 s2. induction xs as [|x xs IH]; intros s1 s2 Hs; simpl; [reflexivity|].
  destruct (existsb (str_eqb x) s1) eqn:H1; destruct (existsb (str_eqb x) s2) eqn:H2.
  - apply IH, Hs.
  - apply existsb_str in H1. apply existsb_str_false in H2. exfalso. apply H2, Hs, H1.
  - apply existsb_str in H2. apply existsb_str_false in H1. exfalso. apply H1, Hs, H2.
  - f_equal. apply IH. intro y. simpl. rewrite Hs. tauto.
Qed.

Lemma dedup_from_In (seen xs : list str) (y : str) :
  In y (dedup_from seen xs) <-> In y xs /\ ~ In y seen.
Proof.
  revert seen. induction xs as [|x xs IH]; intros seen; simpl; [tauto|].
  destruct (existsb (str_eqb x) seen) eqn:Hx.
  - apply existsb_str in Hx. rewrite IH. split.
    + tauto.
    + intros [[<- | H] Hn]; [contradiction | tauto].
  - apply existsb_str_false in Hx. simpl. rewrite IH. simpl. split.
    + intros [<- | [H Hn]]; [tauto|]. split; [tauto|]. intro; apply Hn; tauto.
    + intros [[<- | H] Hn]; [tauto|].
      destruct (list_eq_dec ascii_dec x y); [tauto|]. right. split; [exact H|].
      intros [E|E]; [congruence | contradiction].
Qed.

Lemma dedup_from_NoDup (seen xs : list str) : NoDup (dedup_from seen xs).
Proof.
  revert seen. induction xs as [|x xs IH]; intros seen; simpl; [constructor|].
  destruct (existsb (str_eqb x) seen); [apply IH|].
  constructor; [|apply IH]. rewrite dedup_from_In. simpl. tauto.
Qed.

Lemma dedup_from_app (seen a b : list str) :
  dedup_from seen (a ++ b) = dedup_from seen a ++ dedup_from (a ++ seen) b.
Proof.
  revert seen. induction a as [|x a IH]; intros seen; simpl; [reflexivity|].
  destruct (existsb (str_eqb x) seen) eqn:Hx.
  - rewrite IH. f_equal. apply dedup_from_ext. intro y.
    apply existsb_str in Hx. simpl. rewrite !in_app_iff.
    split; [tauto|]. intros [<- | H]; tauto.
  - simpl. rewrite IH. f_equal. f_equal. apply dedup_from_ext. intro y.
    simpl. rewrite !in_app_iff. simpl. tauto.
Qed.

Lemma first_occurrence (t : str) (xs : list str) :
  In t xs -> exists pre post, xs = pre ++ t :: post /\ ~ In t pre.
Proof.
  induction xs as [|x xs IH]; [intros []|]. intros H.
  destruct (list_eq_dec ascii_dec x t) as [->|Hne].
  - exists [], xs. split; [reflexivity | intros []].
  - destruct H as [E|H]; [contradiction|].
    destruct (IH H) as [pre [post [-> Hn]]].
    exists (x :: pre), post. split; [reflexivity|].
    intros [E|E]; [contradiction | exact (Hn E)].
Qed.

Lemma dedup_first_position (t : str) (pre post : list str) :
  ~ In t pre ->
  dedup_from [] (pre ++ t :: post) = dedup_from [] pre ++ t :: dedup_from (t :: pre) post /\
  ~ In t (dedup_from (t :: pre) post).
Proof.
  intros Hn. split.
  - rewrite dedup_from_app. f_equal. simpl.
    rewrite app_nil_r.
    destruct (existsb (str_eqb t) pre) eqn:E.
    + apply existsb_str in E. contradiction.
    + reflexivity.
  - rewrite dedup_from_In. simpl. tauto.
Qed.

(** ** Claims on the normalizer *)

(** C2: on the Scenario A document, [clean_vtt] returns exactly
    "Hello world Next line". *)
Theorem clean_vtt_scenarioA : clean_vtt scenarioA = s2l "Hello world Next line".
Proof. vm_compute. reflexivity. Qed.

(** C3: if a stripped text line occurs two or more times in a caption
    document, the retained lines of [clean_vtt] (joined by spaces into the
    output) contain it exactly once.  The retained lines are without
    duplicates, are exactly the candidate texts, and each one stands where
    its first occurrence does: after the retained lines of what comes
    before it, and never again after it. *)
Theorem clean_vtt_dedup_first_occurrence (vtt_text t : str)
  (Hrep : 2 <= count_occ (list_eq_dec ascii_dec) (line_texts (split_on NL vtt_text)) t) :
  clean_vtt vtt_text = join (s2l " ") (clean_lines vtt_text) /\
  count_occ (list_eq_dec ascii_dec) (clean_lines vtt_text) t = 1 /\
  NoDup (clean_lines vtt_text) /\
  (forall u, In u (clean_lines vtt_text) <-> In u (line_texts (split_on NL vtt_text))) /\
  (forall u, In u (line_texts (split_on NL vtt_text)) ->
     exists pre post,
       line_texts (split_on NL vtt_text) = pre ++ u :: post /\ ~ In u pre /\
       clean_lines vtt_text = dedup_from [] pre ++ u :: dedup_from (u :: pre) post /\
       ~ In u (dedup_from (u :: pre) post)).
Proof.
  rewrite clean_lines_dedup.
  set (xs := line_texts (split_on NL vtt_text)).
  assert (Hin : forall u, In u (dedup_from [] xs) <-> In u xs).
  { intro u. rewrite dedup_from_In. simpl. tauto. }
  assert (Ht : In t xs).
  { apply (count_occ_In (list_eq_dec ascii_dec)). unfold xs. lia. }
  split; [unfold clean_vtt; rewrite clean_lines_dedup; reflexivity|].
  split; [|split; [apply dedup_from_NoDup | split; [exact Hin|]]].
  - apply (NoDup_count_occ' (list_eq_dec ascii_dec)).
    + apply dedup_from_NoDup.
    + apply Hin, Ht.
  - intros u Hu. destruct (first_occurrence u xs Hu) as [pre [post [Hxs Hn]]].
    exists pre, post. split; [exact Hxs|]. split; [exact Hn|].
    rewrite Hxs. exact (dedup_first_position u pre post Hn).
Qed.

Lemma clean_vtt_dedup_first_occurrence_witness :
  2 <= count_occ (list_eq_dec ascii_dec) (line_texts (split_on NL scenarioA)) (s2l "Hello world") /\
  count_occ (list_eq_dec ascii_dec) (clean_lines scenarioA) (s2l "Hello world") = 1.
Proof.
  assert (H : 2 <= count_occ (list_eq_dec ascii_dec)
                     (line_texts (split_on NL scenarioA)) (s2l "Hello world"))
    by (vm_compute; lia).
  split; [exact H|].
  exact (proj1 (proj2 (clean_vtt_dedup_first_occurrence scenarioA (s2l "Hello world") H))).
Defined.

(** ** Removal of [kw\S+] tokens *)

Lemma startswith_prefix (p s : str) : startswith p s = true -> exists r, s = p ++ r.
Proof.
  revert s. induction p as [|c p IH]; intros s H; [exists s; reflexivity|].
  destruct s as [|d s]; [discriminate|]. simpl in H.
  apply andb_true_iff in H as [Hc Hp]. apply Ascii.eqb_eq in Hc. subst d.
  destruct (IH s Hp) as [r ->]. exists r. reflexivity.
Qed.

Lemma startswith_app (p r : str) : startswith p (p ++ r) = true.
Proof. induction p as [|c p IH]; [reflexivity|]. simpl. rewrite Ascii.eqb_refl. exact IH. Qed.

Lemma skipn_length_app (a r : str) (k : nat) : skipn (List.length a + k) (a ++ r) = skipn k r.
Proof. induction a as [|c a IH]; [reflexivity|]. exact IH. Qed.

Lemma nonspace_prefix_le (u : str) : nonspace_prefix u <= List.length u.
Proof. induction u as [|c u IH]; simpl; [lia|]. destruct (is_space c); simpl; lia. Qed.

Lemma skipn_nonspace_prefix (u : str) :
  skipn (nonspace_prefix u) u = [] \/
  exists w r, skipn (nonspace_prefix u) u = w :: r /\ is_space w = true.
Proof.
  induction u as [|c u IH]; [left; reflexivity|]. simpl.
  destruct (is_space c) eqn:Hc; [right; exists c, u; split; [reflexivity|exact Hc]|].
  exact IH.
Qed.

Lemma re_sub_fuel_nil (f : nat) (m : str -> option nat) : re_sub_fuel f m [] = [].
Proof. destruct f; reflexivity. Qed.

Section KeywordToken.

Variable kw : str.
Variable k : ascii.
Variable kw' : str.
Hypothesis kw_cons : kw = k :: kw'.
Hypothesis kw_no_space : no_space kw.

Lemma m_kw_some (s : str) (n : nat) :
  m_kw kw s = Some n ->
  1 <= n /\ n <= List.length s /\
  (skipn n s = [] \/ exists w r, skipn n s = w :: r /\ is_space w = true).
Proof.
  unfold m_kw. destruct (startswith kw s) eqn:Hs; [|discriminate].
  destruct (startswith_prefix _ _ Hs) as [r ->].
  pose proof (skipn_length_app kw r) as Hsk.
  pose proof (Hsk 0) as Hsk0. rewrite Nat.add_0_r in Hsk0. rewrite Hsk0. simpl skipn.
  pose proof (nonspace_prefix_le r) as Hle.
  destruct (nonspace_prefix r) as [|j] eqn:Hj; intros E; simpl in E; [discriminate E|].
  injection E as <-. rewrite Hsk, length_app, <- Hj.
  split; [subst kw; simpl; lia|]. split; [lia|].
  apply skipn_nonspace_prefix.
Qed.

Lemma m_kw_space_head (w : ascii) (r : str) : is_space w = true -> m_kw kw (w :: r) = None.
Proof.
  intros Hw. unfold m_kw. subst kw. simpl.
  destruct (Ascii.eqb k w) eqn:E; [|reflexivity].
  apply Ascii.eqb_eq in E. subst w.
  rewrite (kw_no_space k) in Hw; [discriminate | left; reflexivity].
Qed.

Lemma m_kw_token (d : ascii) (r : str) :
  is_space d = false -> m_kw kw (kw ++ d :: r) <> None.
Proof.
  intros Hd. unfold m_kw. rewrite startswith_app.
  pose proof (skipn_length_app kw (d :: r) 0) as Hsk0. rewrite Nat.add_0_r in Hsk0.
  rewrite Hsk0. simpl skipn. simpl. rewrite Hd. discriminate.
Qed.

Lemma re_sub_space_head (f : nat) (w : ascii) (r : str) :
  is_space w = true -> exists r', re_sub_fuel f (m_kw kw) (w :: r) = w :: r'.
Proof.
  intros Hw. destruct f; [exists r; reflexivity|].
  simpl. rewrite m_kw_space_head by exact Hw. eexists; reflexivity.
Qed.

Lemma re_sub_prefix (f : nat) (s t q : str) :
  no_space t -> re_sub_fuel f (m_kw kw) s = t ++ q -> exists q', s = t ++ q'.
Proof.
  revert s t q. induction f as [|f IH]; intros s t q Ht H.
  - simpl in H. subst s. exists q. reflexivity.
  - destruct t as [|x t']; [exists s; reflexivity|].
    destruct s as [|c r]; [discriminate|].
    simpl in H. destruct (m_kw kw (c :: r)) as [n|] eqn:Hm.
    + exfalso. destruct (m_kw_some _ _ Hm) as [_ [_ [Hsk | [w [r' [Hsk Hw]]]]]];
        rewrite Hsk in H.
      * rewrite re_sub_fuel_nil in H. discriminate.
      * destruct (re_sub_space_head f w r' Hw) as [r'' Hr]. rewrite Hr in H.
        injection H as Hwx _. rewrite Hwx in Hw.
        rewrite (Ht x) in Hw; [discriminate | left; reflexivity].
    + injection H as Hc H. subst x.
      destruct (IH r t' q) as [q' ->]; [intros c' Hc'; apply Ht; right; exact Hc' | exact H |].
      exists q'. reflexivity.
Qed.

Lemma re_sub_substr (f : nat) (s t : str) :
  no_space t -> substr t (re_sub_fuel f (m_kw kw) s) -> substr t s.
Proof.
  revert s. induction f as [|f IH]; intros s Ht H; [exact H|].
  destruct s as [|c r]; [exact H|].
  simpl in H. destruct (m_kw kw (c :: r)) as [n|] eqn:Hm.
  - destruct (IH _ Ht H) as [a [b Hab]].
    exists (firstn n (c :: r) ++ a), b.
    rewrite <- (firstn_skipn n (c :: r)) at 1. rewrite Hab, app_assoc. reflexivity.
  - destruct H as [a [b Hab]]. destruct a as [|y a'].
    + destruct t as [|x t']; [exists [], (c :: r); reflexivity|].
      simpl in Hab. injection Hab as Hc Hab. subst c.
      destruct (re_sub_prefix f r t' b) as [q' ->];
        [intros c' Hc'; apply Ht; right; exact Hc' | exact Hab |].
      exists [], q'. reflexivity.
    + simpl in Hab. injection Hab as Hc Hab. subst y.
      destruct (IH r Ht (ex_intro _ a' (ex_intro _ b Hab))) as [a'' [b'' ->]].
      exists (c :: a''), b''. reflexivity.
Qed.

Lemma has_token_nil : ~ has_token kw [].
Proof.
  intros [d [_ [a [b H]]]]. subst kw.
  destruct a; discriminate.
Qed.

Lemma re_sub_no_token (f : nat) (s : str) :
  List.length s <= f -> ~ has_token kw (re_sub_fuel f (m_kw kw) s).
Proof.
  revert s. induction f as [|f IH]; intros s Hlen.
  - destruct s; [exact has_token_nil | simpl in Hlen; lia].
  - destruct s as [|c r]; [exact has_token_nil|].
    simpl. destruct (m_kw kw (c :: r)) as [n|] eqn:Hm.
    + destruct (m_kw_some _ _ Hm) as [Hn [Hns _]]. apply IH.
      rewrite length_skipn. simpl length in *. lia.
    + intros [d [Hd [a [b Hab]]]]. destruct a as [|y a'].
      * assert (E : (kw ++ [d]) ++ b = k :: (kw' ++ [d]) ++ b)
          by (rewrite kw_cons; reflexivity).
        simpl in Hab. rewrite E in Hab. injection Hab as Hc Hab. subst c.
        destruct (re_sub_prefix f r (kw' ++ [d]) b) as [q ->].
        { intros x Hx. apply in_app_iff in Hx as [Hx | [<- | []]]; [|exact Hd].
          apply kw_no_space. rewrite kw_cons. right. exact Hx. }
        { exact Hab. }
        apply (m_kw_token d q Hd). rewrite <- Hm. f_equal.
        rewrite kw_cons. simpl. rewrite <- app_assoc. reflexivity.
      * simpl in Hab. injection Hab as Hc Hab. subst y.
        apply (IH r); [simpl in Hlen; lia|].
        exists d. split; [exact Hd|]. exists a', b. exact Hab.
Qed.

End KeywordToken.

Lemma no_space_ALIGN : no_space ALIGN.
Proof. intros c Hc. simpl in Hc. repeat destruct Hc as [<- | Hc]; try reflexivity. contradiction. Qed.

Lemma no_space_POSITION : no_space POSITION.
Proof. intros c Hc. simpl in Hc. repeat destruct Hc as [<- | Hc]; try reflexivity. contradiction. Qed.

Lemma no_space_token (kw : str) (d : ascii) :
  no_space kw -> is_space d = false -> no_space (kw ++ [d]).
Proof. intros Hk Hd c Hc. apply in_app_iff in Hc as [Hc | [<- | []]]; auto. Qed.

Lemma substr_trans (s x y : str) : substr s x -> substr x y -> substr s y.
Proof.
  intros [a [b ->]] [a' [b' ->]]. exists (a' ++ a), (b ++ b').
  rewrite !app_assoc. reflexivity.
Qed.

Lemma has_token_substr (kw x y : str) : substr x y -> has_token kw x -> has_token kw y.
Proof. intros Hxy [d [Hd Hs]]. exists d. split; [exact Hd | exact (substr_trans _ _ _ Hs Hxy)]. Qed.

Lemma lstrip_suffix (p : ascii -> bool) (s : str) : exists a, s = a ++ lstrip_by p s.
Proof.
  induction s as [|c s IH]; [exists []; reflexivity|]. simpl.
  destruct (p c); [|exists []; reflexivity].
  destruct IH as [a Ha]. exists (c :: a). simpl. f_equal. exact Ha.
Qed.

Lemma strip_substr (p : ascii -> bool) (s : str) : substr (strip_by p s) s.
Proof.
  unfold strip_by. destruct (lstrip_suffix p s) as [a Ha].
  set (u := lstrip_by p s) in *.
  destruct (lstrip_suffix p (rev u)) as [a' Ha'].
  set (v := lstrip_by p (rev u)) in *.
  exists a, (rev a'). rewrite Ha at 1. f_equal.
  rewrite <- (rev_involutive u), Ha', rev_app_distr. reflexivity.
Qed.

Lemma substr_app_space (t a b : str) (w : ascii) :
  no_space t -> is_space w = true -> substr t (a ++ w :: b) -> substr t a \/ substr t b.
Proof.
  intros Ht Hw [p [q Hpq]].
  apply app_eq_app in Hpq as [l [[Ha Hl] | [Hp Hl]]].
  - apply app_eq_app in Hl as [l' [[Ht' Hq] | [Hl' Hw']]].
    + destruct l' as [|c l'].
      * left. exists p, []. rewrite app_nil_r in Ht'. subst. rewrite app_nil_r. reflexivity.
      * exfalso. injection Hq as Hwc _. subst c. rewrite (Ht w) in Hw; [discriminate|].
        rewrite Ht'. apply in_app_iff. right. left. reflexivity.
    + left. exists p, l'. subst. reflexivity.
  - destruct l as [|c l].
    + destruct t as [|c t]; [right; exists [], b; reflexivity|].
      exfalso. simpl in Hl. injection Hl as Hwc _. subst c.
      rewrite (Ht w) in Hw; [discriminate | left; reflexivity].
    + right. simpl in Hl. injection Hl as _ Hl. exists l, q. exact Hl.
Qed.

Lemma has_token_join (kw : str) (xs : list str) :
  no_space kw -> has_token kw (join (s2l " ") xs) -> exists x, In x xs /\ has_token kw x.
Proof.
  intros Hk. induction xs as [|x xs IH]; simpl.
  - intros [d [_ [a [b H]]]]. destruct a; destruct kw; discriminate.
  - destruct xs as [|y xs].
    + intros H. exists x. split; [left; reflexivity | exact H].
    + intros [d [Hd Hs]].
      destruct (substr_app_space (kw ++ [d]) x (join (s2l " ") (y :: xs)) " "%char
                  (no_space_token kw d Hk Hd) eq_refl Hs) as [Hx | Hr].
      * exists x. split; [left; reflexivity|]. exists d. split; assumption.
      * destruct IH as [z [Hz Hzt]]; [exists d; split; assumption|].
        exists z. split; [right; exact Hz | exact Hzt].
Qed.

Lemma line_text_no_token (l t : str) :
  line_text l = Some t -> ~ has_token ALIGN t /\ ~ has_token POSITION t.
Proof.
  unfold line_text.
  destruct (startswith (s2l "WEBVTT") l); [discriminate|].
  destruct (startswith (s2l "Kind:") l || startswith (s2l "Language:") l); [discriminate|].
  destruct (is_ts_line l); [discriminate|].
  destruct (str_eqb (strip l) []); [discriminate|].
  set (z := re_sub (m_kw ALIGN) (re_sub m_c (re_sub m_tag l))).
  destruct (strip (re_sub (m_kw POSITION) z)) as [|c r] eqn:Hs; [discriminate|].
  intros E. injection E as <-. rewrite <- Hs.
  assert (Hsub := strip_substr is_space (re_sub (m_kw POSITION) z)).
  split; intros Htok; apply (has_token_substr _ _ _ Hsub) in Htok.
  - destruct Htok as [d [Hd Hd']].
    apply (re_sub_substr POSITION "p"%char (s2l "osition:") eq_refl no_space_POSITION)
      in Hd'; [|exact (no_space_token _ _ no_space_ALIGN Hd)].
    apply (re_sub_no_token ALIGN "a"%char (s2l "lign:") eq_refl no_space_ALIGN
             (List.length (re_sub m_c (re_sub m_tag l))) _ (le_n _)).
    exists d. split; assumption.
  - exact (re_sub_no_token POSITION "p"%char (s2l "osition:") eq_refl no_space_POSITION
             (List.length z) z (le_n _) Htok).
Qed.

Lemma clean_vtt_no_token (vtt_text : str) :
  ~ has_token ALIGN (clean_vtt vtt_text) /\ ~ has_token POSITION (clean_vtt vtt_text).
Proof.
  assert (Hline : forall kw, no_space kw ->
            (forall t, In t (clean_lines vtt_text) -> ~ has_token kw t) ->
            ~ has_token kw (clean_vtt vtt_text)).
  { intros kw Hk Hall Htok. destruct (has_token_join kw _ Hk Htok) as [x [Hx Hxt]].
    exact (Hall x Hx Hxt). }
  assert (Hsrc : forall t, In t (clean_lines vtt_text) -> exists l, line_text l = Some t).
  { intros t Ht. rewrite clean_lines_dedup, dedup_from_In in Ht. destruct Ht as [Ht _].
    unfold line_texts in Ht. apply in_flat_map in Ht as [l [_ Hl]].
    destruct (line_text l) as [t'|] eqn:E; [|destruct Hl].
    destruct Hl as [<- | []]. exists l. exact E. }
  split; apply Hline; try apply no_space_ALIGN; try apply no_space_POSITION;
    intros t Ht; destruct (Hsrc t Ht) as [l Hl]; apply (line_text_no_token l t Hl).
Qed.

Lemma nested_tag_output : clean_vtt nested_tag = TAG0.
Proof. vm_compute. reflexivity. Qed.

Lemma TAG0_timing_tag : has_timing_tag TAG0.
Proof. exists TAG0. split; [reflexivity|]. split; [reflexivity|]. exists [], []. reflexivity. Qed.

Lemma nested_tag_has_TAG0 : has_timing_tag nested_tag.
Proof.
  exists TAG0. split; [reflexivity|]. split; [reflexivity|].
  exists [chr 60], (s2l "00:00:00.000>"). reflexivity.
Qed.

(** C8 (amended): for every caption document, the output of [clean_vtt]
    contains no [align:] or [position:] token with a value (no match of
    [align:\S+] or [position:\S+]).  Inline timing tags are removed in one
    left-to-right pass: the tag contained in the nested markup
    [<<00:00:00.000>00:00:00.000>] is still in the output. *)
Theorem clean_vtt_strips_annotation_tokens :
  (forall vtt_text,
     ~ has_token ALIGN (clean_vtt vtt_text) /\ ~ has_token POSITION (clean_vtt vtt_text)) /\
  has_timing_tag nested_tag /\ has_timing_tag (clean_vtt nested_tag).
Proof.
  split; [exact clean_vtt_no_token|]. split; [exact nested_tag_has_TAG0|].
  rewrite nested_tag_output. exact TAG0_timing_tag.
Qed.

(** C8 refuted: a timing tag present in the input survives [clean_vtt]. *)
Lemma clean_vtt_timing_tag_survives :
  has_timing_tag nested_tag /\
  ~ (forall vtt_text,
       ~ has_timing_tag (clean_vtt vtt_text) /\
       ~ has_token ALIGN (clean_vtt vtt_text) /\ ~ has_token POSITION (clean_vtt vtt_text)).
Proof.
  split; [exact nested_tag_has_TAG0|]. intros H.
  apply (proj1 (H nested_tag)). rewrite nested_tag_output. exact TAG0_timing_tag.
Qed.

(** ** Plain text lines *)

Lemma re_sub_fuel_no_match (m : str -> option nat) (f : nat) (s : str) :
  no_match_b m s = true -> re_sub_fuel f m s = s.
Proof.
  revert s. induction f as [|f IH]; intros s H; [reflexivity|].
  destruct s as [|c r]; [reflexivity|]. simpl in *.
  destruct (m (c :: r)); [discriminate|]. rewrite IH by exact H. reflexivity.
Qed.

Lemma split_on_no_sep (sep : ascii) (s : str) :
  existsb (Ascii.eqb sep) s = false -> split_on sep s = [s].
Proof.
  induction s as [|c s IH]; intros H; [reflexivity|]. simpl in *.
  apply orb_false_iff in H as [Hc Hs]. rewrite Ascii.eqb_sym, Hc, IH by exact Hs.
  reflexivity.
Qed.

Lemma strip_unchanged (c : ascii) (r : str) :
  is_space c = false -> is_space (last (c :: r) " "%char) = false ->
  strip (c :: r) = c :: r.
Proof.
  intros Hc Hl. unfold strip, strip_by.
  assert (H1 : lstrip_by is_space (c :: r) = c :: r) by (simpl; rewrite Hc; reflexivity).
  rewrite H1.
  assert (E : c :: r = removelast (c :: r) ++ [last (c :: r) " "%char])
    by (apply app_removelast_last; discriminate).
  set (x := last (c :: r) " "%char) in *. set (y := removelast (c :: r)) in *.
  assert (H2 : lstrip_by is_space (rev (c :: r)) = rev (c :: r)).
  { rewrite E, rev_app_distr. simpl. rewrite Hl. reflexivity. }
  rewrite H2, rev_involutive. reflexivity.
Qed.

(** C9 (amended): [clean_vtt] returns unchanged a single line of plain text
    (non-empty, without newline or surrounding whitespace, not a header,
    metadata or timestamp line, without timing tags, [<c>]/[</c>] and
    [align:]/[position:] tokens).  It is not idempotent on every input: a
    line whose leading whitespace hides a header is kept the first time and
    dropped the second. *)
Theorem clean_vtt_plain_line_fixed :
  (forall s, plain_text_line s -> clean_vtt s = s) /\
  clean_vtt (clean_vtt (s2l " WEBVTT")) <> clean_vtt (s2l " WEBVTT").
Proof.
  split; [|vm_compute; discriminate].
  intros s (Hnl & Hhd & Hlast & Hw & Hk & Hlg & Hts & Htag & Hc & Hal & Hpos).
  destruct s as [|c r]; [destruct Hhd|].
  assert (Hline : line_text (c :: r) = Some (c :: r)).
  { unfold line_text. rewrite Hw, Hk, Hlg, Hts. simpl orb.
    rewrite (strip_unchanged c r Hhd Hlast). simpl str_eqb.
    unfold re_sub. rewrite (re_sub_fuel_no_match _ _ _ Htag).
    rewrite (re_sub_fuel_no_match _ _ _ Hc).
    rewrite (re_sub_fuel_no_match _ _ _ Hal).
    rewrite (re_sub_fuel_no_match _ _ _ Hpos).
    rewrite (strip_unchanged c r Hhd Hlast). reflexivity. }
  unfold clean_vtt, clean_lines. rewrite (split_on_no_sep NL _ Hnl).
  simpl. rewrite Hline. reflexivity.
Qed.

Lemma clean_vtt_plain_line_fixed_witness :
  plain_text_line (s2l "Hello world") /\ clean_vtt (s2l "Hello world") = s2l "Hello world".
Proof.
  assert (H : plain_text_line (s2l "Hello world")) by (repeat split; vm_compute; reflexivity).
  split; [exact H|]. exact (proj1 clean_vtt_plain_line_fixed _ H).
Defined.

(** C9 refuted: [clean_vtt] is not idempotent. *)
Lemma clean_vtt_not_idempotent :
  ~ (forall s, clean_vtt (clean_vtt s) = clean_vtt s).
Proof. intros H. specialize (H (s2l " WEBVTT")). vm_compute in H. discriminate H. Qed.

(** ** [sanitize_filename] *)

Lemma In_strip_by (p : ascii -> bool) (s : str) (c : ascii) : In c (strip_by p s) -> In c s.
Proof.
  intros H. destruct (strip_substr p s) as [a [b Hab]].
  rewrite Hab. apply in_app_iff. right. apply in_app_iff. left. exact H.
Qed.

Lemma In_firstn_str (n : nat) (s : str) (c : ascii) : In c (firstn n s) -> In c s.
Proof. intros H. rewrite <- (firstn_skipn n s). apply in_app_iff. left. exact H. Qed.

(** C7: the sanitized filename contains none of the nine characters of
    [bad_char] (less-than, greater-than, colon, double quote, slash,
    backslash, bar, question mark, star), is at most 200 characters long and
    is never empty; the title of Scenario D maps to [AB Test]. *)
Theorem sanitize_filename_bounds :
  (forall title,
     (forall c, In c (sanitize_filename title) -> bad_char c = false) /\
     List.length (sanitize_filename title) <= 200 /\
     sanitize_filename title <> []) /\
  sanitize_filename scenarioD = s2l "AB Test".
Proof.
  split; [|vm_compute; reflexivity].
  intros title. unfold sanitize_filename.
  set (safe := filter (fun c => negb (bad_char c)) title).
  set (p := fun c => (Ascii.eqb c "."%char || Ascii.eqb c " "%char)%bool).
  destruct (strip_by p safe) as [|x r] eqn:Hs.
  - split; [|split; [simpl; lia | discriminate]].
    intros c Hc. simpl in Hc.
    repeat destruct Hc as [<- | Hc]; try reflexivity. contradiction.
  - split; [|split; [apply firstn_le_length | discriminate]].
    intros c Hc. apply In_firstn_str in Hc. rewrite <- Hs in Hc.
    apply In_strip_by in Hc. unfold safe in Hc. apply filter_In in Hc as [_ Hc].
    apply negb_true_iff in Hc. exact Hc.
Qed.

(** ** [download_subtitle] and the scratch directory *)

(** C4 (amended): [download_subtitle] returns a transcript exactly when the
    tool finished and a caption file was located; then every scratch file
    whose name starts with the video id is deleted and every other file is
    kept.  On the timeout and not-located paths it returns [None] and
    deletes nothing: the scratch directory is left as the tool left it. *)
Theorem download_subtitle_scratch (video_id : str) (run : tool_run) (d : scratch) :
  let '(r, d') := download_subtitle_pure video_id run d in
  (r <> None <-> exists w p, run = Finished w /\ locate_vtt video_id (after_tool d run) = Some p) /\
  (r <> None ->
     forall f, In f d' <-> In f (after_tool d run) /\ startswith video_id (fst f) = false) /\
  (r = None -> d' = after_tool d run).
Proof.
  destruct run as [w|w]; simpl.
  - split; [|split; [intros H; contradiction H; reflexivity | reflexivity]].
    split; [intros H; contradiction H; reflexivity|].
    intros [w' [p [E _]]]. discriminate E.
  - unfold after_tool. simpl. destruct (locate_vtt video_id (write_files d w)) as [p|] eqn:Hl.
    + split; [|split].
      * split; [intros _; exists w, p; split; reflexivity | discriminate].
      * intros _ f. rewrite filter_In, negb_true_iff. reflexivity.
      * discriminate.
    + split; [|split; [intros H; contradiction H; reflexivity | reflexivity]].
      split; [intros H; contradiction H; reflexivity|].
      intros [w' [p [E Hp]]]. injection E as <-. congruence.
Qed.

(** C4 refuted: after a timeout, a partial file the tool wrote for the video
    is still in the scratch directory. *)
Lemma download_subtitle_timeout_keeps_files :
  ~ (forall video_id run d f,
       In f (snd (download_subtitle_pure video_id run d)) ->
       startswith video_id (fst f) = false).
Proof.
  intros H.
  specialize (H (s2l "dQw4w9WgXcQ") (Timeout [(s2l "dQw4w9WgXcQ.en.vtt.part", [])]) []
                (s2l "dQw4w9WgXcQ.en.vtt.part", [])).
  vm_compute in H. discriminate (H (or_introl eq_refl)).
Qed.

(** ** The loop of [main] *)

Lemma emit_all_spec (es : list effect) (w : world) :
  emit_all es w = (Done tt, set_effects w (w_effects w ++ es)).
Proof.
  revert w. induction es as [|e es IH]; intros w; destruct w; simpl.
  - rewrite app_nil_r. reflexivity.
  - unfold bind. simpl. rewrite IH. simpl. rewrite <- app_assoc. reflexivity.
Qed.

Lemma process_video_spec (output_dir : str) (idx : nat) (v : str * str)
    (st : run_state) (w : world) :
  process_video output_dir idx v st w =
    let '(run, rest) := pop_tool (w_tools w) in
    let '(r, d') := download_subtitle_pure (fst v) run (w_scratch w) in
    (Done (step_state st v r),
     {| w_stderr := w_stderr w; w_effects := w_effects w ++ video_effects output_dir idx v r;
        w_scratch := d'; w_tools := rest; w_listing := w_listing w; w_now := w_now w |}).
Proof.
  destruct v as [vid title]. destruct w as [err es sc tools lst now].
  unfold process_video, video_effects, step_state.
  destruct (idx mod 10 =? 0);
  unfold bind, download_subtitle; cbn [w_tools w_scratch fst];
  destruct (pop_tool tools) as [run rest];
  destruct (download_subtitle_pure vid run sc) as [r d'];
  destruct r as [[|c t]|]; cbn -[individual_text individual_path section_writes];
  try rewrite emit_all_spec; cbn -[individual_text individual_path section_writes];
    rewrite ?app_nil_r, <- ?app_assoc; reflexivity.
Qed.

Lemma loop_state_nil (st : run_state) : loop_state st [] [] = st.
Proof.
  destruct st. unfold loop_state, failed_of. simpl.
  rewrite !Nat.add_0_r, app_nil_r. reflexivity.
Qed.

Lemma loop_state_cons (st : run_state) v vs r rs :
  loop_state st (v :: vs) (r :: rs) = loop_state (step_state st v r) vs rs.
Proof.
  unfold loop_state, step_state, failed_of. simpl.
  destruct (truthy r); simpl; f_equal; try lia.
  rewrite <- app_assoc. reflexivity.
Qed.

Lemma run_loop_spec (output_dir : str) (vs : list (str * str)) :
  forall idx st w,
  run_loop output_dir idx vs st w =
    let '(rs, (d', ts')) := retrieve_all (w_scratch w) (w_tools w) vs in
    (Done (loop_state st vs rs),
     {| w_stderr := w_stderr w; w_effects := w_effects w ++ loop_effects output_dir idx vs rs;
        w_scratch := d'; w_tools := ts'; w_listing := w_listing w; w_now := w_now w |}).
Proof.
  induction vs as [|v vs IH]; intros idx st w.
  - destruct w. simpl. rewrite loop_state_nil, app_nil_r. reflexivity.
  - simpl run_loop. unfold bind at 1. rewrite process_video_spec.
    destruct w as [err es sc tools lst now]. cbn [w_tools w_scratch retrieve_all].
    destruct (pop_tool tools) as [run rest].
    destruct (download_subtitle_pure (fst v) run sc) as [r d1].
    rewrite IH. cbn [w_tools w_scratch w_effects w_stderr w_listing w_now].
    destruct (retrieve_all d1 rest vs) as [rs [d' ts']].
    rewrite loop_state_cons. simpl loop_effects. rewrite app_assoc. reflexivity.
Qed.

Lemma retrieve_all_length (vs : list (str * str)) :
  forall d ts, List.length (fst (retrieve_all d ts vs)) = List.length vs.
Proof.
  induction vs as [|v vs IH]; intros d ts; simpl; [reflexivity|].
  destruct (pop_tool ts) as [run ts'].
  destruct (download_subtitle_pure (fst v) run d) as [r d'].
  specialize (IH d' ts'). destruct (retrieve_all d' ts' vs) as [rs fin].
  simpl in *. rewrite IH. reflexivity.
Qed.

(** ** [main] *)

Lemma main_listing_failure (args : cli_args) (w : world) :
  returncode (w_listing w) <> 0%Z ->
  main args w =
    (Exit 1, set_stderr w (w_stderr w ++ [list_error (stderr (w_listing w)) ++ nl])).
Proof.
  intros Hrc. destruct w as [err es sc tools lst now]. simpl in Hrc.
  unfold main, get_all_videos, bind, run_listing, eprint, sys_exit. cbn [w_listing w_stderr].
  apply Z.eqb_neq in Hrc. rewrite Hrc. reflexivity.
Qed.

Lemma main_listing_success (args : cli_args) (w : world) :
  returncode (w_listing w) = 0%Z ->
  main args w =
    let vs := parse_listing (stdout (w_listing w)) in
    let '(rs, (d', ts')) := retrieve_all (w_scratch w) (w_tools w) vs in
    (Done (loop_state init_state vs rs),
     {| w_stderr := w_stderr w;
        w_effects := w_effects w ++ main_effects args (w_now w) vs rs d';
        w_scratch := d'; w_tools := ts'; w_listing := w_listing w; w_now := w_now w |}).
Proof.
  intros Hrc. destruct w as [err es sc tools [rc out err'] now]. simpl in Hrc. subst rc.
  unfold main, get_all_videos, bind, run_listing, ret, emit, strftime.
  cbn [w_listing returncode stdout Z.eqb negb w_effects set_effects w_now].
  rewrite emit_all_spec. cbn [w_effects set_effects].
  rewrite run_loop_spec. unfold set_effects.
  cbn [w_effects w_scratch w_tools w_stderr w_listing w_now stdout].
  destruct (retrieve_all sc tools (parse_listing out)) as [rs [d' ts']].
  unfold rmdir_tolerant, main_effects. cbn [w_scratch].
  destruct d' as [|f d'']; cbn [w_effects set_effects w_now w_stderr w_listing w_scratch w_tools];
    rewrite <- !app_assoc; reflexivity.
Qed.

(** ** The manifest *)

Lemma pair_eqb_eq (a b : str * str) : pair_eqb a b = true <-> a = b.
Proof.
  destruct a as [a1 a2], b as [b1 b2]. unfold pair_eqb. simpl.
  rewrite andb_true_iff, !str_eqb_eq. split; [intros [-> ->]; reflexivity|].
  intros E. injection E as -> ->. split; reflexivity.
Qed.

Lemma existsb_pair_false (v : str * str) (l : list (str * str)) :
  ~ In v l -> existsb (pair_eqb v) l = false.
Proof.
  intros H. destruct (existsb (pair_eqb v) l) eqn:E; [|reflexivity].
  apply existsb_exists in E. destruct E as [x [Hx Hv]].
  apply pair_eqb_eq in Hv. subst. contradiction.
Qed.

Lemma failed_of_cons v vs r rs :
  failed_of (v :: vs) (r :: rs) = (if truthy r then [] else [v]) ++ failed_of vs rs.
Proof. unfold failed_of. simpl. destruct (truthy r); reflexivity. Qed.

Lemma failed_of_In (vs : list (str * str)) rs x : In x (failed_of vs rs) -> In x vs.
Proof.
  unfold failed_of. rewrite in_map_iff. intros [[v r] [Hx Hin]]. simpl in Hx. subst.
  apply filter_In in Hin. destruct Hin as [Hin _]. apply in_combine_l in Hin. exact Hin.
Qed.

Lemma manifest_flags_gen (vs : list (str * str)) :
  NoDup vs -> forall rs pre,
  List.length rs = List.length vs ->
  (forall v, In v vs -> existsb (pair_eqb v) pre = false) ->
  map has_transcript (manifest_entries vs (pre ++ failed_of vs rs)) = map truthy rs.
Proof.
  induction 1 as [|v vs Hv Hnd IH]; intros rs pre Hlen Hpre.
  - destruct rs; [reflexivity | discriminate].
  - destruct rs as [|r rs]; [discriminate|]. simpl in Hlen. injection Hlen as Hlen.
    rewrite failed_of_cons. destruct v as [a b]. simpl. f_equal.
    + rewrite !existsb_app, Hpre by (left; reflexivity).
      rewrite (existsb_pair_false _ (failed_of vs rs)) by (intros H; apply Hv, (failed_of_In _ _ _ H)).
      destruct (truthy r); simpl; [reflexivity|].
      rewrite (proj2 (pair_eqb_eq (a, b) (a, b)) eq_refl). reflexivity.
    + rewrite app_assoc. apply IH; [exact Hlen|].
      intros v' Hv'. rewrite existsb_app, Hpre by (right; exact Hv').
      destruct (truthy r); [reflexivity|].
      rewrite (existsb_pair_false v' [(a, b)]); [reflexivity|].
      intros [E|[]]. subst. contradiction.
Qed.

Lemma manifest_flags (vs : list (str * str)) (rs : list (option str)) :
  NoDup vs -> List.length rs = List.length vs ->
  map has_transcript (manifest_entries vs (failed_of vs rs)) = map truthy rs.
Proof. intros H Hl. apply (manifest_flags_gen vs H rs [] Hl). reflexivity. Qed.

Lemma manifest_entries_ids (vs failed : list (str * str)) :
  map (fun e => (e_id e, e_title e)) (manifest_entries vs failed) = vs.
Proof. induction vs as [|[a b] vs IH]; simpl; [reflexivity | rewrite IH; reflexivity]. Qed.

Lemma filter_partition {A} (f : A -> bool) (l : list A) :
  List.length (filter f l) + List.length (filter (fun x => negb (f x)) l) = List.length l.
Proof. induction l as [|x l IH]; simpl; [reflexivity|]. destruct (f x); simpl; lia. Qed.

Lemma count_true_filter (rs : list (option str)) :
  count_occ bool_dec (map truthy rs) true = List.length (filter truthy rs).
Proof. induction rs as [|r rs IH]; simpl; [reflexivity|]. destruct (truthy r); simpl; lia. Qed.

Lemma written_manifest_main (args : cli_args) (es : list effect) now vs rs d :
  written_manifest (es ++ main_effects args now vs rs d) =
  Some {| channel_url := arg_channel_url args;
          channel_name := channel_name_of args;
          download_date := now;
          total_videos := List.length vs;
          transcripts_downloaded := success_count (loop_state init_state vs rs);
          transcripts_failed := fail_count (loop_state init_state vs rs);
          videos := manifest_entries vs (failed_videos (loop_state init_state vs rs)) |}.
Proof.
  unfold main_effects, written_manifest. rewrite !app_assoc, fold_left_app. reflexivity.
Qed.

Lemma nodup_b_NoDup (l : list (str * str)) : nodup_b l = true -> NoDup l.
Proof.
  induction l as [|x l IH]; simpl; intros H; [constructor|].
  apply andb_true_iff in H. destruct H as [H1 H2]. constructor; [|exact (IH H2)].
  intros Hin. apply negb_true_iff in H1.
  assert (E : existsb (pair_eqb x) l = true)
    by (apply existsb_exists; exists x; split; [exact Hin | apply pair_eqb_eq; reflexivity]).
  congruence.
Qed.

(** C1: when the listing succeeds and its (id, title) pairs are pairwise
    distinct, the manifest written at the end lists the videos in order,
    its downloaded and failed counts add up to the total, and the number of
    entries flagged [has_transcript] equals the downloaded count. *)
Theorem manifest_consistent (args : cli_args) (w : world)
  (Hrc : returncode (w_listing w) = 0%Z)
  (Hdistinct : NoDup (parse_listing (stdout (w_listing w)))) :
  let vs := parse_listing (stdout (w_listing w)) in
  let '(_, w') := main args w in
  exists m, written_manifest (w_effects w') = Some m /\
    total_videos m = List.length vs /\
    map (fun e => (e_id e, e_title e)) (videos m) = vs /\
    transcripts_downloaded m + transcripts_failed m = total_videos m /\
    count_occ bool_dec (map has_transcript (videos m)) true = transcripts_downloaded m.
Proof.
  cbv zeta. rewrite (main_listing_success args w Hrc). cbv zeta.
  pose proof (retrieve_all_length (parse_listing (stdout (w_listing w))) (w_scratch w) (w_tools w)) as Hlen.
  destruct (retrieve_all (w_scratch w) (w_tools w) (parse_listing (stdout (w_listing w))))
    as [rs [d' ts']].
  simpl in Hlen. cbv beta iota. cbn [w_effects]. rewrite written_manifest_main.
  eexists; split; [reflexivity|]. cbn.
  split; [reflexivity|]. split; [apply manifest_entries_ids|]. split.
  - rewrite filter_partition. exact Hlen.
  - rewrite manifest_flags by assumption. apply count_true_filter.
Qed.

(** ** Listing failure *)

(** C5: when the listing tool exits with a non-zero status, [main] stops
    with exit status 1, prints the tool's raw error text after the
    [ERROR] line on stderr, and performs no file-system effect at all: no
    directory, combined file or manifest is created. *)
Theorem listing_failure_is_fatal (args : cli_args) (w : world)
  (Hrc : returncode (w_listing w) <> 0%Z) :
  let '(o, w') := main args w in
  o = Exit 1 /\ w_effects w' = w_effects w /\ w_scratch w' = w_scratch w /\
  w_stderr w' = w_stderr w ++
    [s2l "[ERROR] Failed to list channel videos:" ++ nl ++ stderr (w_listing w) ++ nl].
Proof.
  rewrite (main_listing_failure args w Hrc). destruct w. unfold set_stderr.
  cbn [w_effects w_scratch w_stderr w_listing].
  unfold list_error. rewrite <- !app_assoc. repeat split.
Qed.

(** ** The combined archive *)

Lemma combined_text_app (l1 l2 : list effect) :
  combined_text (l1 ++ l2) = combined_text l1 ++ combined_text l2.
Proof. unfold combined_text. rewrite map_app, concat_app. reflexivity. Qed.

Lemma combined_text_writes (xs : list str) :
  combined_text (map CombinedWrite xs) = List.concat xs.
Proof. unfold combined_text. rewrite map_map. simpl. rewrite map_id. reflexivity. Qed.

Lemma combined_text_sleep (idx : nat) :
  combined_text (if idx mod 10 =? 0 then [Sleep 2] else []) = [].
Proof. destruct (idx mod 10 =? 0); reflexivity. Qed.

Lemma combined_text_loop (output_dir : str) (vs : list (str * str)) :
  forall idx rs,
  combined_text (loop_effects output_dir idx vs rs) =
  List.concat (map section_text (successes vs rs)).
Proof.
  induction vs as [|v vs IH]; intros idx rs; [reflexivity|].
  destruct rs as [|r rs]; [reflexivity|].
  simpl loop_effects. rewrite combined_text_app, IH.
  unfold successes. simpl flat_map. fold (successes vs rs).
  unfold video_effects. rewrite combined_text_app, combined_text_sleep, app_nil_r.
  destruct r as [[|c t]|]; reflexivity.
Qed.

Lemma combined_text_main (args : cli_args) now vs rs d :
  combined_text (main_effects args now vs rs d) =
  List.concat (header_writes (channel_name_of args) (List.length vs) now (arg_channel_url args)) ++
  List.concat (map section_text (successes vs rs)).
Proof.
  unfold main_effects. rewrite !combined_text_app, combined_text_writes, combined_text_loop.
  assert (E : forall e l, match e with CombinedWrite _ => False | _ => True end ->
                          combined_text (e :: l) = combined_text l)
    by (intros [] l H; first [contradiction | reflexivity]).
  rewrite !E by exact I. destruct d; rewrite ?E by exact I; cbn [combined_text map List.concat];
  rewrite ?app_nil_r; reflexivity.
Qed.

Lemma successes_videos (vs : list (str * str)) (rs : list (option str)) :
  map fst (successes vs rs) = map fst (filter (fun p => truthy (snd p)) (combine vs rs)).
Proof.
  unfold successes. induction (combine vs rs) as [|[v r] l IH]; [reflexivity|].
  simpl. destruct r as [[|c t]|]; simpl; rewrite IH; reflexivity.
Qed.

(** C6: when the listing succeeds, the effects of the run extend those
    before it; the text written to the combined file is the header block
    followed by one section per video whose transcript is non-empty, in
    listing order (the sectioned videos are exactly those, and videos
    without a transcript contribute nothing).  On Scenario B (three videos,
    the second one timing out) the run ends with counts 2 and 1 and the
    failed list [videoB2], the archive is the header then the sections of
    videos 1 and 3, and the manifest reports 3 videos, 2 downloaded and 1
    failed. *)
Theorem combined_archive_sections :
  (forall (args : cli_args) (w : world),
     returncode (w_listing w) = 0%Z ->
     let vs := parse_listing (stdout (w_listing w)) in
     let rs := fst (retrieve_all (w_scratch w) (w_tools w) vs) in
     let '(o, w') := main args w in
     exists new, w_effects w' = w_effects w ++ new /\
       In (OpenCombined (arg_combined_file args)) new /\
       combined_text new =
         List.concat (header_writes (channel_name_of args) (List.length vs) (w_now w)
                                    (arg_channel_url args)) ++
         List.concat (map section_text (successes vs rs)) /\
       map fst (successes vs rs) = map fst (filter (fun p => truthy (snd p)) (combine vs rs)) /\
       o = Done (loop_state init_state vs rs)) /\
  (let '(o, w') := main argsB worldB in
   o = Done {| success_count := 2; fail_count := 1; failed_videos := [videoB2] |} /\
   combined_text (w_effects w') =
     List.concat (header_writes (s2l "Chan") 3 (w_now worldB) (arg_channel_url argsB)) ++
     section_text (videoB1, s2l "first talk") ++ section_text (videoB3, s2l "third talk") /\
   option_map (fun m => (total_videos m, transcripts_downloaded m, transcripts_failed m))
     (written_manifest (w_effects w')) = Some (3, 2, 1)).
Proof.
  split.
  - intros args w Hrc. cbv zeta. rewrite (main_listing_success args w Hrc). cbv zeta.
    destruct (retrieve_all (w_scratch w) (w_tools w) (parse_listing (stdout (w_listing w))))
      as [rs [d' ts']].
    cbv beta iota. cbn [w_effects fst].
    eexists; split; [reflexivity|]. split; [|split; [|split]].
    + unfold main_effects. simpl. right. right. left. reflexivity.
    + apply combined_text_main.
    + apply successes_videos.
    + reflexivity.
  - vm_compute. repeat split.
Qed.

(** ** An empty transcript *)

(** C10: when the caption file is located but normalizes to the empty
    string, [download_subtitle] returns [Some] of the empty string, and the
    loop body takes the failure branch: the failure count grows by one, the
    video is appended to the failed list, and no individual file and no
    combined-archive text is written (the only possible effect is the pause
    on every tenth video). *)
Theorem empty_transcript_is_failure (video_id title : str) (written : list (str * str))
  (d : scratch) (vtt_path : str)
  (Hloc : locate_vtt video_id (write_files d written) = Some vtt_path)
  (Hempty : clean_vtt (read_file vtt_path (write_files d written)) = []) :
  fst (download_subtitle_pure video_id (Finished written) d) = Some [] /\
  (forall output_dir idx st w rest,
     w_scratch w = d -> w_tools w = Finished written :: rest ->
     let '(o, w') := process_video output_dir idx (video_id, title) st w in
     o = Done {| success_count := success_count st; fail_count := S (fail_count st);
                 failed_videos := failed_videos st ++ [(video_id, title)] |} /\
     w_effects w' = w_effects w ++ (if idx mod 10 =? 0 then [Sleep 2] else [])).
Proof.
  assert (Hdl : fst (download_subtitle_pure video_id (Finished written) d) = Some []).
  { simpl. rewrite Hloc, Hempty. reflexivity. }
  split; [exact Hdl|].
  intros output_dir idx st w rest Hsc Htools.
  rewrite process_video_spec, Htools, Hsc. cbn [pop_tool fst].
  destruct (download_subtitle_pure video_id (Finished written) d) as [r d'].
  simpl in Hdl. subst r. split; reflexivity.
Qed.

(** ** Witnesses *)

Lemma manifest_consistent_witness :
  returncode (w_listing worldB) = 0%Z /\
  NoDup (parse_listing (stdout (w_listing worldB))) /\
  (let vs := parse_listing (stdout (w_listing worldB)) in
   let '(_, w') := main argsB worldB in
   exists m, written_manifest (w_effects w') = Some m /\
     total_videos m = List.length vs /\
     map (fun e => (e_id e, e_title e)) (videos m) = vs /\
     transcripts_downloaded m + transcripts_failed m = total_videos m /\
     count_occ bool_dec (map has_transcript (videos m)) true = transcripts_downloaded m).
Proof.
  assert (H1 : returncode (w_listing worldB) = 0%Z) by reflexivity.
  assert (H2 : NoDup (parse_listing (stdout (w_listing worldB))))
    by (apply nodup_b_NoDup; vm_compute; reflexivity).
  exact (conj H1 (conj H2 (manifest_consistent argsB worldB H1 H2))).
Defined.

Lemma listing_failure_is_fatal_witness :
  returncode (w_listing worldC) <> 0%Z /\
  (let '(o, w') := main argsB worldC in
   o = Exit 1 /\ w_effects w' = w_effects worldC /\ w_scratch w' = w_scratch worldC /\
   w_stderr w' = w_stderr worldC ++
     [s2l "[ERROR] Failed to list channel videos:" ++ nl ++ stderr (w_listing worldC) ++ nl]).
Proof.
  assert (H : returncode (w_listing worldC) <> 0%Z) by (vm_compute; discriminate).
  exact (conj H (listing_failure_is_fatal argsB worldC H)).
Defined.

Lemma empty_transcript_is_failure_witness :
  locate_vtt (s2l "v9") (write_files [] [(s2l "v9.en.vtt", header_only_vtt)]) =
    Some (s2l "v9.en.vtt") /\
  clean_vtt (read_file (s2l "v9.en.vtt") (write_files [] [(s2l "v9.en.vtt", header_only_vtt)])) = [] /\
  fst (download_subtitle_pure (s2l "v9") (Finished [(s2l "v9.en.vtt", header_only_vtt)]) []) =
    Some [].
Proof.
  assert (H1 : locate_vtt (s2l "v9") (write_files [] [(s2l "v9.en.vtt", header_only_vtt)]) =
                 Some (s2l "v9.en.vtt")) by (vm_compute; reflexivity).
  assert (H2 : clean_vtt (read_file (s2l "v9.en.vtt")
                 (write_files [] [(s2l "v9.en.vtt", header_only_vtt)])) = [])
    by (vm_compute; reflexivity).
  exact (conj H1 (conj H2 (proj1 (empty_transcript_is_failure (s2l "v9") (s2l "Silent video")
            [(s2l "v9.en.vtt", header_only_vtt)] [] (s2l "v9.en.vtt") H1 H2)))).
Defined.

(** * Further properties of the code *)

(** ** Strings *)

Lemma lstrip_by_app (p : ascii -> bool) (a b : str) :
  lstrip_by p (a ++ b) = if forallb p a then lstrip_by p b else lstrip_by p a ++ b.
Proof.
  induction a as [|c a IH]; simpl; [reflexivity|].
  destruct (p c); simpl; [exact IH | reflexivity].
Qed.

Lemma lstrip_by_shape (p : ascii -> bool) (s : str) :
  (lstrip_by p s = [] /\ forallb p s = true) \/
  exists c r, lstrip_by p s = c :: r /\ p c = false.
Proof.
  induction s as [|c s IH]; simpl; [left; split; reflexivity|].
  destruct (p c) eqn:E; simpl; [exact IH | right; exists c, s; split; [reflexivity | exact E]].
Qed.

Lemma last_cons_default (c : ascii) (r : str) (d d' : ascii) :
  last (c :: r) d = last (c :: r) d'.
Proof. revert c. induction r as [|x r IH]; intros c; [reflexivity|]. exact (IH x). Qed.

Lemma last_app_cons (l : str) (c : ascii) (r : str) (d : ascii) :
  last (l ++ c :: r) d = last (c :: r) d.
Proof.
  induction l as [|x l IH]; [reflexivity|]. rewrite <- IH. destruct l; reflexivity.
Qed.

Lemma strip_by_shape (p : ascii -> bool) (s : str) :
  strip_by p s = [] \/
  exists c r, strip_by p s = c :: r /\ p c = false /\ p (last (c :: r) c) = false.
Proof.
  unfold strip_by.
  destruct (lstrip_by_shape p s) as [[-> _]|[c [r [Hy Hc]]]]; [left; reflexivity|].
  rewrite Hy. simpl rev. rewrite lstrip_by_app.
  assert (Hcc : lstrip_by p [c] = [c]) by (simpl; rewrite Hc; reflexivity). rewrite Hcc.
  destruct (forallb p (rev r)) eqn:Hf.
  - right. exists c, []. simpl. split; [reflexivity|]. split; exact Hc.
  - destruct (lstrip_by_shape p (rev r)) as [[_ Hf']|[d [z [Hz Hd]]]]; [congruence|].
    rewrite Hz, rev_app_distr. right. exists c, (rev z ++ [d]).
    split; [reflexivity|]. split; [exact Hc|].
    assert (L : last (c :: rev z ++ [d]) c = d) by exact (last_app_cons (c :: rev z) d [] c).
    rewrite L. exact Hd.
Qed.

Lemma strip_by_unchanged (p : ascii -> bool) (c : ascii) (r : str) :
  p c = false -> p (last (c :: r) c) = false -> strip_by p (c :: r) = c :: r.
Proof.
  intros Hc Hl. unfold strip_by.
  assert (H1 : lstrip_by p (c :: r) = c :: r) by (simpl; rewrite Hc; reflexivity).
  rewrite H1.
  assert (E : c :: r = removelast (c :: r) ++ [last (c :: r) c])
    by (apply app_removelast_last; discriminate).
  set (x := last (c :: r) c) in *. set (l := removelast (c :: r)) in *.
  rewrite E, rev_app_distr. simpl. rewrite Hl. simpl. rewrite rev_involutive. reflexivity.
Qed.

Lemma strip_by_idem (p : ascii -> bool) (s : str) : strip_by p (strip_by p s) = strip_by p s.
Proof.
  destruct (strip_by_shape p s) as [E|[c [r [E [Hc Hl]]]]]; rewrite E;
    [reflexivity | apply strip_by_unchanged; assumption].
Qed.

Lemma strip_by_nonempty (p : ascii -> bool) (s : str) (c : ascii) :
  In c s -> p c = false -> strip_by p s <> [].
Proof.
  unfold strip_by. intros Hin Hc E.
  apply (f_equal (@List.length ascii)) in E. rewrite length_rev in E.
  apply length_zero_iff_nil in E.
  destruct (lstrip_by_shape p s) as [[_ Hf]|[d [z [Hy Hd]]]].
  - rewrite forallb_forall in Hf. rewrite (Hf c Hin) in Hc. discriminate.
  - rewrite Hy in E.
    destruct (lstrip_by_shape p (rev (d :: z))) as [[_ Hf]|[e [w [He _]]]]; [|congruence].
    rewrite forallb_forall in Hf.
    assert (Hdin : In d (rev (d :: z))) by (apply in_rev; rewrite rev_involutive; left; reflexivity).
    rewrite (Hf d Hdin) in Hd. discriminate.
Qed.

Lemma In_re_sub (m : str -> option nat) (f : nat) (s : str) (c : ascii) :
  In c (re_sub_fuel f m s) -> In c s.
Proof.
  revert s. induction f as [|f IH]; intros s H; [exact H|].
  destruct s as [|x r]; [exact H|]. simpl in H.
  destruct (m (x :: r)) as [n|].
  - apply IH in H. rewrite <- (firstn_skipn n (x :: r)). apply in_or_app. right. exact H.
  - destruct H as [<-|H]; [left; reflexivity | right; exact (IH r H)].
Qed.

Lemma split_on_not_nil (sep : ascii) (s : str) : split_on sep s <> [].
Proof.
  destruct s as [|c s]; simpl; [discriminate|].
  destruct (Ascii.eqb c sep); [discriminate|]. destruct (split_on sep s); discriminate.
Qed.

Lemma split_on_app (sep : ascii) (a b : str) :
  split_on sep (a ++ sep :: b) = split_on sep a ++ split_on sep b.
Proof.
  induction a as [|c a IH]; simpl; [rewrite Ascii.eqb_refl; reflexivity|].
  rewrite IH. destruct (Ascii.eqb c sep); [reflexivity|].
  destruct (split_on sep a) as [|q qs] eqn:E; [exfalso; exact (split_on_not_nil sep a E)|].
  reflexivity.
Qed.

Lemma split_on_elems (sep : ascii) (s x : str) :
  In x (split_on sep s) -> forall c, In c x -> In c s /\ c <> sep.
Proof.
  revert x. induction s as [|d s IH]; intros x Hx c Hc; simpl in Hx.
  - destruct Hx as [<-|[]]. destruct Hc.
  - destruct (Ascii.eqb d sep) eqn:E.
    + destruct Hx as [<-|Hx]; [destruct Hc|].
      destruct (IH x Hx c Hc) as [H1 H2]. split; [right; exact H1 | exact H2].
    + assert (Hd : d <> sep) by (intros ->; rewrite Ascii.eqb_refl in E; discriminate).
      destruct (split_on sep s) as [|q qs] eqn:Hs.
      * destruct Hx as [<-|[]]. destruct Hc as [<-|[]]. split; [left; reflexivity | exact Hd].
      * destruct Hx as [<-|Hx].
        -- destruct Hc as [<-|Hc]; [split; [left; reflexivity | exact Hd]|].
           destruct (IH q (or_introl eq_refl) c Hc) as [H1 H2].
           split; [right; exact H1 | exact H2].
        -- destruct (IH x (or_intror Hx) c Hc) as [H1 H2]. split; [right; exact H1 | exact H2].
Qed.

Lemma existsb_eqb_notin (c : ascii) (s : str) : ~ In c s -> existsb (Ascii.eqb c) s = false.
Proof.
  intros H. destruct (existsb (Ascii.eqb c) s) eqn:E; [|reflexivity].
  apply existsb_exists in E as [x [Hx Ex]]. apply Ascii.eqb_eq in Ex. subst. contradiction.
Qed.

Lemma split_once_two (sep : ascii) (s a b : str) :
  split_once sep s = [a; b] -> s = a ++ sep :: b /\ ~ In sep a.
Proof.
  revert a. induction s as [|c s IH]; intros a H; simpl in H; [discriminate|].
  destruct (Ascii.eqb c sep) eqn:E.
  - injection H as <- <-. apply Ascii.eqb_eq in E. subst. split; [reflexivity | intros []].
  - destruct (split_once sep s) as [|q qs] eqn:Hs; [discriminate|].
    injection H as <- ->. destruct (IH q eq_refl) as [Hsq Hq].
    split; [rewrite Hsq; reflexivity|].
    intros [Hc|Hc]; [subst; rewrite Ascii.eqb_refl in E; discriminate | contradiction].
Qed.


Lemma last_In (x : ascii) (l : str) (d : ascii) : In (last (x :: l) d) (x :: l).
Proof.
  revert x. induction l as [|y l IH]; intros x; [left; reflexivity|].
  right. exact (IH y).
Qed.


Lemma join_ends (P : ascii -> bool) (sep : str) (xs : list str) :
  (forall x, In x xs -> exists c r, x = c :: r /\ P c = false /\ P (last (c :: r) c) = false) ->
  xs = [] \/ exists c r, join sep xs = c :: r /\ P c = false /\ P (last (c :: r) c) = false.
Proof.
  induction xs as [|x xs IH]; intros H; [left; reflexivity|]. right.
  destruct (H x (or_introl eq_refl)) as [c [r [-> [Hc Hl]]]].
  destruct xs as [|y ys]; [exists c, r; auto|].
  destruct (IH (fun z Hz => H z (or_intror Hz))) as [E|[c' [r' [Hj [_ Hl']]]]]; [discriminate|].
  exists c, (r ++ sep ++ c' :: r').
  change (join sep ((c :: r) :: y :: ys)) with (c :: r ++ sep ++ join sep (y :: ys)).
  rewrite Hj. split; [reflexivity|]. split; [exact Hc|].
  replace (c :: r ++ sep ++ c' :: r') with ((c :: r ++ sep) ++ c' :: r')
    by (simpl; rewrite <- app_assoc; reflexivity).
  rewrite last_app_cons, (last_cons_default c' r' c c'). exact Hl'.
Qed.







(** ** [get_all_videos]: parsing the listing *)

(** Every (id, title) pair parsed from the listing output has a non-empty
    id and a non-empty title, neither with surrounding whitespace, and an id
    without a tab. *)
Theorem parse_listing_entries (out video_id title : str)
  (Hin : In (video_id, title) (parse_listing out)) :
  video_id <> [] /\ title <> [] /\ strip video_id = video_id /\ strip title = title /\
  ~ In TAB video_id.
Proof.
  unfold parse_listing in Hin. apply in_flat_map in Hin as [line [_ Hl]].
  unfold parse_line in Hl. cbv zeta in Hl.
  destruct (strip_by_shape is_space line) as [E|[c [r [E [Hc Hlast]]]]];
    change (strip_by is_space line) with (strip line) in E; rewrite E in Hl; [destruct Hl|].
  destruct (split_once TAB (c :: r)) as [|a [|b [|x y]]] eqn:Hs;
    [destruct Hl | destruct Hl | | destruct Hl].
  destruct Hl as [Hab|[]]. injection Hab as <- <-.
  destruct (split_once_two TAB (c :: r) a b Hs) as [Hcr Ha].
  assert (Htab : is_space TAB = true) by reflexivity.
  destruct a as [|c' a'].
  { simpl in Hcr. injection Hcr as -> _. congruence. }
  simpl in Hcr. injection Hcr as <- Hr.
  destruct b as [|d b'].
  { exfalso. rewrite Hr in Hlast.
    assert (L : last (c :: a' ++ [TAB]) c = TAB)
      by exact (eq_trans (last_cons_default c (a' ++ [TAB]) c TAB)
                         (last_app_cons (c :: a') TAB [] TAB)).
    rewrite L in Hlast. congruence. }
  assert (Hd : is_space (last (d :: b') d) = false).
  { rewrite Hr in Hlast.
    assert (L : last (c :: a' ++ TAB :: d :: b') c = last (d :: b') d)
      by exact (eq_trans (last_cons_default c (a' ++ TAB :: d :: b') c d)
                         (last_app_cons (c :: a') TAB (d :: b') d)).
    rewrite L in Hlast. exact Hlast. }
  split; [exact (strip_by_nonempty is_space (c :: a') c (or_introl eq_refl) Hc)|].
  split; [exact (strip_by_nonempty is_space (d :: b') _ (last_In d b' d) Hd)|].
  split; [apply strip_by_idem|]. split; [apply strip_by_idem|].
  intros Hin. apply In_strip_by in Hin. exact (Ha Hin).
Qed.


Lemma parse_listing_entries_witness :
  In (s2l "v2", s2l "Title two") (parse_listing (stdout listingB)) /\
  s2l "v2" <> [] /\ s2l "Title two" <> [] /\ strip (s2l "v2") = s2l "v2" /\
  strip (s2l "Title two") = s2l "Title two" /\ ~ In TAB (s2l "v2").
Proof.
  assert (H : In (s2l "v2", s2l "Title two") (parse_listing (stdout listingB)))
    by (vm_compute; right; left; reflexivity).
  split; [exact H|]. exact (parse_listing_entries _ _ _ H).
Defined.


(** ** [main]: the channel name *)

Lemma last_In_list {A} (l : list A) (d : A) : l <> [] -> In (last l d) l.
Proof.
  induction l as [|x l IH]; intros H; [congruence|].
  destruct l as [|y l]; [left; reflexivity|].
  right. apply IH. discriminate.
Qed.

Lemma hd_In_list {A} (l : list A) (d : A) : l <> [] -> In (hd d l) l.
Proof. destruct l; [congruence|]. intros _. left. reflexivity. Qed.

(** When no channel name is given, the name derived from the channel URL
    contains neither an at sign nor a slash, and every character of it is a
    character of the URL. *)
Theorem channel_name_auto_chars (a : cli_args)
  (Hname : arg_channel_name a = None \/ arg_channel_name a = Some []) :
  forall c, In c (channel_name_of a) ->
    In c (arg_channel_url a) /\ c <> "@"%char /\ c <> "/"%char.
Proof.
  intros c Hc. unfold channel_name_of in Hc.
  destruct Hname as [E|E]; rewrite E in Hc;
  set (x := last (split_on "@"%char (arg_channel_url a)) []) in Hc;
  assert (Hx : In x (split_on "@"%char (arg_channel_url a)))
    by (apply last_In_list, split_on_not_nil);
  assert (Hy : In (hd [] (split_on "/"%char x)) (split_on "/"%char x))
    by (apply hd_In_list, split_on_not_nil);
  destruct (split_on_elems _ _ _ Hy c Hc) as [Hcx Hs];
  destruct (split_on_elems _ _ _ Hx c Hcx) as [Hcu Ha]; auto.
Qed.

(** When no channel name is given and the URL has the form
    [pre @ handle / rest], with no at sign in [handle] or [rest] and no slash
    in [handle], the channel name is [handle]. *)
Theorem channel_name_from_url (a : cli_args) (pre handle rest : str)
  (Hname : arg_channel_name a = None \/ arg_channel_name a = Some [])
  (Hurl : arg_channel_url a = pre ++ "@"%char :: handle ++ "/"%char :: rest)
  (Hat_h : ~ In "@"%char handle) (Hsl_h : ~ In "/"%char handle)
  (Hat_r : ~ In "@"%char rest) :
  channel_name_of a = handle.
Proof.
  assert (Hat : ~ In "@"%char (handle ++ "/"%char :: rest)).
  { intros H. apply in_app_iff in H as [H|[H|H]]; [exact (Hat_h H)|discriminate|exact (Hat_r H)]. }
  assert (S1 : split_on "@"%char (arg_channel_url a) =
               split_on "@"%char pre ++ [handle ++ "/"%char :: rest]).
  { rewrite Hurl, split_on_app, (split_on_no_sep _ _ (existsb_eqb_notin _ _ Hat)).
    reflexivity. }
  assert (S2 : split_on "/"%char (handle ++ "/"%char :: rest) =
               [handle] ++ split_on "/"%char rest).
  { rewrite split_on_app, (split_on_no_sep _ _ (existsb_eqb_notin _ _ Hsl_h)).
    reflexivity. }
  unfold channel_name_of.
  destruct Hname as [E|E]; rewrite E, S1, last_last, S2; reflexivity.
Qed.

Lemma channel_name_auto_chars_witness :
  arg_channel_name argsB = None /\
  (forall c, In c (channel_name_of argsB) ->
     In c (arg_channel_url argsB) /\ c <> "@"%char /\ c <> "/"%char).
Proof.
  split; [reflexivity|]. exact (channel_name_auto_chars argsB (or_introl eq_refl)).
Defined.

Lemma channel_name_from_url_witness :
  channel_name_of argsB = s2l "Chan".
Proof.
  apply (channel_name_from_url argsB (s2l "https://www.youtube.com/")
           (s2l "Chan") (s2l "videos") (or_introl eq_refl) eq_refl);
    intros H; vm_compute in H; repeat (destruct H as [H|H]; [discriminate H|]); exact H.
Defined.

(** ** [sanitize_filename]: ends and idempotence *)

Lemma sanitize_filename_shape (title : str) :
  sanitize_filename title = s2l "untitled" \/
  exists c r, sanitize_filename title = firstn 200 (c :: r) /\
    dot_or_space c = false /\ dot_or_space (last (c :: r) c) = false /\
    (forall x, In x (c :: r) -> bad_char x = false).
Proof.
  unfold sanitize_filename. cbv zeta.
  set (safe := filter (fun c => negb (bad_char c)) title).
  change (strip_by (fun c => (Ascii.eqb c "."%char || Ascii.eqb c " "%char)%bool) safe)
    with (strip_by dot_or_space safe).
  destruct (strip_by_shape dot_or_space safe) as [E|[c [r [E [Hc Hl]]]]]; rewrite E;
    [left; reflexivity|].
  right. exists c, r. split; [reflexivity|]. split; [exact Hc|]. split; [exact Hl|].
  intros x Hx. rewrite <- E in Hx. apply In_strip_by in Hx.
  unfold safe in Hx. apply filter_In in Hx as [_ Hx]. apply negb_true_iff in Hx. exact Hx.
Qed.

Lemma filter_all_true {A} (f : A -> bool) (l : list A) :
  (forall x, In x l -> f x = true) -> filter f l = l.
Proof.
  induction l as [|x l IH]; intros H; [reflexivity|]. simpl.
  rewrite (H x (or_introl eq_refl)), IH; [reflexivity|].
  intros y Hy. exact (H y (or_intror Hy)).
Qed.

Lemma firstn_200_short (l : str) :
  List.length (firstn 200 l) < 200 -> firstn 200 l = l.
Proof.
  intros H. rewrite length_firstn in H. apply firstn_all2. lia.
Qed.

(** A sanitized filename never starts with a dot or a space. *)
Theorem sanitize_filename_first_char (title : str) :
  exists c r, sanitize_filename title = c :: r /\ dot_or_space c = false.
Proof.
  destruct (sanitize_filename_shape title) as [E|[c [r [E [Hc _]]]]]; rewrite E.
  - exists "u"%char, (s2l "ntitled"). split; reflexivity.
  - exists c, (firstn 199 r). split; [reflexivity | exact Hc].
Qed.

(** A sanitized filename shorter than 200 characters does not end in a dot or
    a space either (a name cut at 200 characters can). *)
Theorem sanitize_filename_last_char (title : str)
  (Hshort : List.length (sanitize_filename title) < 200) :
  dot_or_space (last (sanitize_filename title) "u"%char) = false.
Proof.
  destruct (sanitize_filename_shape title) as [E|[c [r [E [Hc [Hl _]]]]]]; rewrite E in *;
    [reflexivity|].
  rewrite (firstn_200_short _ Hshort). rewrite (last_cons_default c r "u"%char c). exact Hl.
Qed.

(** Sanitizing a sanitized filename shorter than 200 characters changes
    nothing. *)
Theorem sanitize_filename_idem (title : str)
  (Hshort : List.length (sanitize_filename title) < 200) :
  sanitize_filename (sanitize_filename title) = sanitize_filename title.
Proof.
  destruct (sanitize_filename_shape title) as [E|[c [r [E [Hc [Hl Hbad]]]]]]; rewrite E in *;
    [reflexivity|].
  rewrite (firstn_200_short _ Hshort). unfold sanitize_filename. cbv zeta.
  rewrite filter_all_true by (intros x Hx; apply negb_true_iff, Hbad, Hx).
  change (strip_by (fun c => (Ascii.eqb c "."%char || Ascii.eqb c " "%char)%bool) (c :: r))
    with (strip_by dot_or_space (c :: r)).
  rewrite (strip_by_unchanged dot_or_space c r Hc Hl).
  apply firstn_200_short. exact Hshort.
Qed.

Lemma sanitize_filename_last_char_witness :
  List.length (sanitize_filename scenarioD) < 200 /\
  dot_or_space (last (sanitize_filename scenarioD) "u"%char) = false.
Proof.
  assert (H : List.length (sanitize_filename scenarioD) < 200) by (vm_compute; lia).
  split; [exact H|]. exact (sanitize_filename_last_char scenarioD H).
Defined.

Lemma sanitize_filename_idem_witness :
  List.length (sanitize_filename scenarioD) < 200 /\
  sanitize_filename (sanitize_filename scenarioD) = sanitize_filename scenarioD.
Proof.
  assert (H : List.length (sanitize_filename scenarioD) < 200) by (vm_compute; lia).
  split; [exact H|]. exact (sanitize_filename_idem scenarioD H).
Defined.

(** ** [clean_vtt]: shape of the output *)

Lemma In_join (sep : str) (xs : list str) (c : ascii) :
  In c (join sep xs) -> In c sep \/ exists x, In x xs /\ In c x.
Proof.
  induction xs as [|x xs IH]; intros H; [destruct H|].
  destruct xs as [|y ys].
  - right. exists x. split; [left; reflexivity | exact H].
  - change (join sep (x :: y :: ys)) with (x ++ sep ++ join sep (y :: ys)) in H.
    apply in_app_iff in H as [H|H]; [right; exists x; split; [left; reflexivity | exact H]|].
    apply in_app_iff in H as [H|H]; [left; exact H|].
    destruct (IH H) as [H'|[z [Hz Hc]]]; [left; exact H'|].
    right. exists z. split; [right; exact Hz | exact Hc].
Qed.

Lemma line_text_some (l t : str) :
  line_text l = Some t ->
  (forall c, In c t -> In c l) /\
  exists c r, t = c :: r /\ is_space c = false /\ is_space (last (c :: r) c) = false.
Proof.
  unfold line_text.
  destruct (startswith (s2l "WEBVTT") l); [discriminate|].
  destruct (startswith (s2l "Kind:") l || startswith (s2l "Language:") l); [discriminate|].
  destruct (is_ts_line l); [discriminate|].
  destruct (str_eqb (strip l) []); [discriminate|]. cbv zeta.
  set (x := re_sub (m_kw POSITION) (re_sub (m_kw ALIGN) (re_sub m_c (re_sub m_tag l)))).
  assert (Hx : forall c, In c x -> In c l)
    by (intros c Hc; unfold x, re_sub in Hc;
        do 4 apply In_re_sub in Hc; exact Hc).
  destruct (strip_by_shape is_space x) as [E|[c [r [E [Hc Hl]]]]];
    change (strip_by is_space x) with (strip x) in E; rewrite E; [discriminate|].
  intros H. injection H as <-. split.
  - intros d Hd. apply Hx. apply (In_strip_by is_space). change (strip_by is_space x) with (strip x).
    rewrite E. exact Hd.
  - exists c, r. auto.
Qed.

Lemma clean_lines_texts (s t : str) :
  In t (clean_lines s) ->
  exists l, In l (split_on NL s) /\ line_text l = Some t.
Proof.
  rewrite clean_lines_dedup. intros H. apply dedup_from_In in H as [H _].
  unfold line_texts in H. apply in_flat_map in H as [l [Hl Ht]].
  exists l. split; [exact Hl|].
  destruct (line_text l) as [t'|]; [destruct Ht as [<-|[]]; reflexivity | destruct Ht].
Qed.

(** The text [clean_vtt] returns holds no newline, and is either empty or
    starts and ends with a non-whitespace character. *)
Theorem clean_vtt_shape (vtt_text : str) :
  ~ In NL (clean_vtt vtt_text) /\
  (clean_vtt vtt_text = [] \/
   exists c r, clean_vtt vtt_text = c :: r /\ is_space c = false /\
               is_space (last (c :: r) c) = false).
Proof.
  unfold clean_vtt. split.
  - intros H. apply In_join in H as [H|[t [Ht Hc]]]; [vm_compute in H; destruct H as [H|[]]; discriminate H|].
    destruct (clean_lines_texts _ _ Ht) as [l [Hl Hlt]].
    destruct (line_text_some l t Hlt) as [Hsub _].
    destruct (split_on_elems NL vtt_text l Hl NL (Hsub NL Hc)) as [_ Hne]. exact (Hne eq_refl).
  - destruct (join_ends is_space (s2l " ") (clean_lines vtt_text)) as [E|H].
    + intros t Ht. destruct (clean_lines_texts _ _ Ht) as [l [_ Hlt]].
      exact (proj2 (line_text_some l t Hlt)).
    + left. rewrite E. reflexivity.
    + right. exact H.
Qed.

(** ** [download_subtitle]: locating the caption file *)

Lemma locate_vtt_props (video_id p : str) (d : scratch) :
  locate_vtt video_id d = Some p ->
  path_exists p d = true /\ startswith video_id p = true /\ endswith VTT p = true.
Proof.
  unfold locate_vtt. cbv zeta.
  destruct (find (fun sfx => path_exists (video_id ++ sfx) d) _) as [sfx|] eqn:F.
  - intros H. injection H as <-. apply find_some in F as [Hin Hp].
    split; [exact Hp|]. split; [apply startswith_app|].
    destruct Hin as [<-|[<-|[]]]; unfold endswith; rewrite rev_app_distr; reflexivity.
  - destruct (find (fun e => startswith video_id (fst e) && endswith VTT (fst e)) d)
      as [e|] eqn:G; [|discriminate].
    intros H. injection H as <-. apply find_some in G as [Hin Hp].
    apply andb_true_iff in Hp as [H1 H2]. split; [|auto].
    apply existsb_exists. exists e. split; [exact Hin | apply str_eqb_eq; reflexivity].
Qed.


(** When the tool finishes, [download_subtitle] returns a transcript exactly
    when the scratch directory then holds some file whose name starts with
    the video id and ends in [.vtt]. *)
Theorem download_subtitle_found (video_id : str) (w : list (str * str)) (d : scratch) :
  fst (download_subtitle_pure video_id (Finished w) d) <> None <->
  exists e, In e (write_files d w) /\ startswith video_id (fst e) = true /\
            endswith VTT (fst e) = true.
Proof.
  cbn [download_subtitle_pure]. set (d' := write_files d w).
  destruct (locate_vtt video_id d') as [p|] eqn:L; cbn [fst].
  - split; [intros _ | intros _; discriminate].
    destruct (locate_vtt_props video_id p d' L) as [Hp [H1 H2]].
    apply existsb_exists in Hp as [e [He Hq]]. apply str_eqb_eq in Hq.
    exists e. rewrite Hq. auto.
  - split; [intros H; exfalso; exact (H eq_refl)|].
    intros [e [He [H1 H2]]]. exfalso. unfold locate_vtt in L. cbv zeta in L.
    destruct (find (fun sfx => path_exists (video_id ++ sfx) d') _); [discriminate|].
    destruct (find (fun e => startswith video_id (fst e) && endswith VTT (fst e)) d')
      eqn:G; [discriminate|].
    pose proof (find_none _ _ G e He) as Hf. cbv beta in Hf. rewrite H1, H2 in Hf.
    discriminate.
Qed.


(** ** [main]: the pause every ten videos *)

Lemma succ_div10 (k : nat) :
  S k / 10 = k / 10 + (if S k mod 10 =? 0 then 1 else 0).
Proof.
  pose proof (Nat.div_mod_eq k 10) as Hk. pose proof (Nat.mod_upper_bound k 10) as Hb.
  destruct (Nat.eq_dec (k mod 10) 9) as [E|E].
  - rewrite <- (Nat.div_unique (S k) 10 (k / 10 + 1) 0) by lia.
    rewrite <- (Nat.mod_unique (S k) 10 (k / 10 + 1) 0) by lia. reflexivity.
  - rewrite <- (Nat.div_unique (S k) 10 (k / 10) (S (k mod 10))) by lia.
    rewrite <- (Nat.mod_unique (S k) 10 (k / 10) (S (k mod 10))) by lia. simpl. lia.
Qed.

Lemma video_sleeps (output_dir : str) (idx : nat) (v : str * str) (r : option str) :
  List.length (filter is_sleep (video_effects output_dir idx v r)) =
  if idx mod 10 =? 0 then 1 else 0.
Proof.
  unfold video_effects. rewrite filter_app, length_app.
  destruct (idx mod 10 =? 0); destruct r as [[|c t]|]; reflexivity.
Qed.

Lemma loop_sleeps (output_dir : str) (vs : list (str * str)) :
  forall k rs, List.length vs <= List.length rs ->
  List.length (filter is_sleep (loop_effects output_dir (S k) vs rs)) + k / 10 =
  (k + List.length vs) / 10.
Proof.
  induction vs as [|v vs IH]; intros k rs Hlen.
  - rewrite Nat.add_0_r. destruct rs; reflexivity.
  - destruct rs as [|r rs]; [simpl in Hlen; lia|].
    change (loop_effects output_dir (S k) (v :: vs) (r :: rs))
      with (video_effects output_dir (S k) v r ++ loop_effects output_dir (S (S k)) vs rs).
    rewrite filter_app, length_app, video_sleeps.
    simpl in Hlen. specialize (IH (S k) rs ltac:(lia)).
    rewrite succ_div10 in IH. cbn [List.length].
    replace (k + S (List.length vs)) with (S k + List.length vs) by lia. lia.
Qed.

(** When the listing succeeds, the run pauses once after every tenth video
    of the listing: it adds [total / 10] sleep effects, [total] being the
    number of videos listed. *)
Theorem main_sleeps (args : cli_args) (w : world)
  (Hrc : returncode (w_listing w) = 0%Z) :
  List.length (filter is_sleep (w_effects (snd (main args w)))) =
  List.length (filter is_sleep (w_effects w)) +
  List.length (parse_listing (stdout (w_listing w))) / 10.
Proof.
  rewrite (main_listing_success args w Hrc). cbv zeta.
  set (vs := parse_listing (stdout (w_listing w))).
  pose proof (retrieve_all_length vs (w_scratch w) (w_tools w)) as Hlen.
  destruct (retrieve_all (w_scratch w) (w_tools w) vs) as [rs [d' ts']].
  cbn [snd fst w_effects] in *. rewrite filter_app, length_app. f_equal.
  pose proof (loop_sleeps (arg_output_dir args) vs 0 rs ltac:(lia)) as HL.
  unfold main_effects. rewrite !filter_app, !length_app.
  set (n := List.length (filter is_sleep (loop_effects (arg_output_dir args) 1 vs rs))) in *.
  destruct d'; simpl; simpl in HL; lia.
Qed.

Lemma main_sleeps_witness :
  returncode (w_listing worldB) = 0%Z /\
  List.length (filter is_sleep (w_effects (snd (main argsB worldB)))) =
  List.length (filter is_sleep (w_effects worldB)) +
  List.length (parse_listing (stdout (w_listing worldB))) / 10.
Proof.
  assert (H : returncode (w_listing worldB) = 0%Z) by reflexivity.
  split; [exact H|]. exact (main_sleeps argsB worldB H).
Defined.

(** ** [main]: the individual transcript files *)






(** ** The manifest without distinct videos *)

Lemma existsb_pair_true (v : str * str) (l : list (str * str)) :
  In v l -> existsb (pair_eqb v) l = true.
Proof.
  intros H. apply existsb_exists. exists v. split; [exact H|].
  apply pair_eqb_eq. reflexivity.
Qed.

Lemma manifest_flags_le (vs : list (str * str)) :
  forall rs F, List.length rs = List.length vs ->
  (forall v, In v (failed_of vs rs) -> In v F) ->
  count_occ bool_dec (map has_transcript (manifest_entries vs F)) true <=
  List.length (filter truthy rs).
Proof.
  induction vs as [|v vs IH]; intros rs F Hlen HF; [simpl; lia|].
  destruct rs as [|r rs]; [discriminate|]. simpl in Hlen.
  assert (HF' : forall x, In x (failed_of vs rs) -> In x F)
    by (intros x Hx; apply HF; rewrite failed_of_cons; apply in_app_iff; right; exact Hx).
  specialize (IH rs F ltac:(lia) HF').
  destruct v as [a b]. cbn [manifest_entries map has_transcript count_occ filter].
  fold (manifest_entries vs F) in *.
  destruct (truthy r) eqn:Hr.
  - cbn [List.length].
    destruct (bool_dec (negb (existsb (pair_eqb (a, b)) F)) true); lia.
  - assert (Hin : In (a, b) F)
      by (apply HF; rewrite failed_of_cons, Hr; left; reflexivity).
    rewrite (existsb_pair_true _ _ Hin). cbn [negb].
    destruct (bool_dec false true) as [E|_]; [discriminate E | exact IH].
Qed.

(** When the listing succeeds, whether or not the listed videos are
    distinct, the manifest's downloaded and failed counts add up to its
    total, and at most [transcripts_downloaded] of its entries are flagged
    [has_transcript]: a video listed twice with one failed download is
    flagged false at both places. *)
Theorem manifest_flags_bounded (args : cli_args) (w : world)
  (Hrc : returncode (w_listing w) = 0%Z) :
  let '(_, w') := main args w in
  exists m, written_manifest (w_effects w') = Some m /\
    transcripts_downloaded m + transcripts_failed m = total_videos m /\
    count_occ bool_dec (map has_transcript (videos m)) true <= transcripts_downloaded m.
Proof.
  rewrite (main_listing_success args w Hrc). cbv zeta.
  pose proof (retrieve_all_length (parse_listing (stdout (w_listing w))) (w_scratch w) (w_tools w)) as Hlen.
  destruct (retrieve_all (w_scratch w) (w_tools w) (parse_listing (stdout (w_listing w))))
    as [rs [d' ts']].
  simpl in Hlen. cbv beta iota. cbn [w_effects]. rewrite written_manifest_main.
  eexists; split; [reflexivity|]. cbn [transcripts_downloaded transcripts_failed total_videos videos].
  split.
  - unfold loop_state. cbn [success_count fail_count init_state Nat.add].
    rewrite filter_partition. exact Hlen.
  - unfold loop_state. cbn [success_count failed_videos init_state Nat.add app].
    apply manifest_flags_le; [exact Hlen | intros v Hv; exact Hv].
Qed.

Lemma manifest_flags_bounded_witness :
  returncode (w_listing worldB) = 0%Z /\
  let '(_, w') := main argsB worldB in
  exists m, written_manifest (w_effects w') = Some m /\
    transcripts_downloaded m + transcripts_failed m = total_videos m /\
    count_occ bool_dec (map has_transcript (videos m)) true <= transcripts_downloaded m.
Proof.
  assert (H : returncode (w_listing worldB) = 0%Z) by reflexivity.
  split; [exact H|]. exact (manifest_flags_bounded argsB worldB H).
Defined.

(** ** The path of an individual transcript file *)

Lemma sanitize_filename_no_bad (title : str) (c : ascii) :
  In c (sanitize_filename title) -> bad_char c = false.
Proof.
  destruct (sanitize_filename_shape title) as [E|[d [r [E [_ [_ Hbad]]]]]]; rewrite E.
  - intros H. vm_compute in H. repeat (destruct H as [<-|H]; [reflexivity|]). destruct H.
  - intros H. apply In_firstn_str in H. exact (Hbad c H).
Qed.

Lemma sanitize_filename_head (title : str) :
  exists c r, sanitize_filename title = c :: r /\ bad_char c = false.
Proof.
  destruct (sanitize_filename title) as [|c r] eqn:E.
  - destruct (sanitize_filename_shape title) as [E'|[d [r [E' _]]]]; rewrite E' in E;
      discriminate.
  - exists c, r. split; [reflexivity|]. apply (sanitize_filename_no_bad title).
    rewrite E. left. reflexivity.
Qed.

Lemma path_join_suffix (a b : str) : exists pre, path_join a b = pre ++ b.
Proof.
  unfold path_join. destruct (startswith (s2l "/") b); [exists []; reflexivity|].
  destruct a as [|c a]; [exists []; reflexivity|].
  destruct (endswith (s2l "/") (c :: a)); [exists (c :: a); reflexivity|].
  exists ((c :: a) ++ s2l "/"). rewrite <- app_assoc. reflexivity.
Qed.

Lemma app_cons_first (c : ascii) (a b x y : str) :
  ~ In c a -> ~ In c b -> a ++ c :: x = b ++ c :: y -> a = b.
Proof.
  revert b. induction a as [|d a IH]; intros [|e b] Ha Hb E.
  - reflexivity.
  - injection E as -> _. exfalso. apply Hb. left. reflexivity.
  - injection E as -> _. exfalso. apply Ha. left. reflexivity.
  - injection E as -> E. f_equal. apply IH; [intros H; apply Ha; right; exact H |
                                              intros H; apply Hb; right; exact H | exact E].
Qed.

(** With an output directory that is non-empty and does not end in a slash,
    and a video id without a slash, an individual transcript file is
    written directly inside the output directory: its path is the directory,
    a slash, then the sanitized title, a space, the id in square brackets and
    [.txt], a name holding no slash. *)
Theorem individual_path_in_dir (output_dir video_id title : str)
  (Hdir : output_dir <> []) (Hend : endswith (s2l "/") output_dir = false)
  (Hid : ~ In "/"%char video_id) :
  individual_path output_dir video_id title =
    output_dir ++ "/"%char :: sanitize_filename title ++ s2l " [" ++ video_id ++ s2l "].txt" /\
  ~ In "/"%char (sanitize_filename title ++ s2l " [" ++ video_id ++ s2l "].txt").
Proof.
  split.
  - unfold individual_path, path_join.
    destruct (sanitize_filename_head title) as [c [r [E Hc]]]. rewrite E.
    assert (Hs : startswith (s2l "/") ((c :: r) ++ s2l " [" ++ video_id ++ s2l "].txt") = false).
    { cbn [s2l list_ascii_of_string app startswith].
      destruct (Ascii.eqb "/"%char c) eqn:Ec; [|reflexivity].
      apply Ascii.eqb_eq in Ec. subst c. discriminate Hc. }
    rewrite Hs. destruct output_dir as [|d o]; [contradiction Hdir; reflexivity|].
    rewrite Hend. reflexivity.
  - intros H. apply in_app_iff in H as [H|H].
    + pose proof (sanitize_filename_no_bad title _ H) as Hb. discriminate Hb.
    + apply in_app_iff in H as [H|H]; [vm_compute in H; repeat (destruct H as [H|H]; [discriminate H|]); exact H|].
      apply in_app_iff in H as [H|H]; [exact (Hid H)|].
      vm_compute in H; repeat (destruct H as [H|H]; [discriminate H|]); exact H.
Qed.

(** Two videos whose ids differ and hold no opening square bracket never get
    the same individual transcript path, whatever their titles and output
    directories: a video's file is never overwritten by another's. *)
Theorem individual_path_distinct (od1 od2 id1 id2 t1 t2 : str)
  (Hb1 : ~ In "["%char id1) (Hb2 : ~ In "["%char id2) (Hne : id1 <> id2) :
  individual_path od1 id1 t1 <> individual_path od2 id2 t2.
Proof.
  unfold individual_path. intros E.
  destruct (path_join_suffix od1 (sanitize_filename t1 ++ s2l " [" ++ id1 ++ s2l "].txt"))
    as [p1 E1].
  destruct (path_join_suffix od2 (sanitize_filename t2 ++ s2l " [" ++ id2 ++ s2l "].txt"))
    as [p2 E2].
  rewrite E1, E2 in E.
  assert (R : forall p s id : str,
             p ++ s ++ s2l " [" ++ id ++ s2l "].txt" =
             ((p ++ s ++ [" "%char]) ++ "["%char :: id) ++ s2l "].txt")
    by (intros; rewrite <- !app_assoc; reflexivity).
  rewrite !R in E. apply app_inv_tail in E.
  apply (f_equal (@rev ascii)) in E. rewrite !rev_app_distr in E. cbn [rev app] in E.
  rewrite <- !app_assoc in E. cbn [app] in E.
  apply Hne. rewrite <- (rev_involutive id1), <- (rev_involutive id2). f_equal.
  apply (app_cons_first "["%char _ _ _ _ (fun H => Hb1 (proj2 (in_rev id1 _) H))
           (fun H => Hb2 (proj2 (in_rev id2 _) H)) E).
Qed.

Lemma individual_path_in_dir_witness :
  s2l "transcripts" <> [] /\ endswith (s2l "/") (s2l "transcripts") = false /\
  ~ In "/"%char (s2l "v1") /\
  individual_path (s2l "transcripts") (s2l "v1") (s2l "Title one") =
    s2l "transcripts" ++ "/"%char :: sanitize_filename (s2l "Title one") ++
      s2l " [" ++ s2l "v1" ++ s2l "].txt" /\
  ~ In "/"%char (sanitize_filename (s2l "Title one") ++ s2l " [" ++ s2l "v1" ++ s2l "].txt").
Proof.
  assert (H1 : s2l "transcripts" <> []) by discriminate.
  assert (H2 : endswith (s2l "/") (s2l "transcripts") = false) by reflexivity.
  assert (H3 : ~ In "/"%char (s2l "v1"))
    by (intros H; vm_compute in H; repeat (destruct H as [H|H]; [discriminate H|]); exact H).
  split; [exact H1|]. split; [exact H2|]. split; [exact H3|].
  exact (individual_path_in_dir _ _ (s2l "Title one") H1 H2 H3).
Defined.

Lemma individual_path_distinct_witness :
  ~ In "["%char (s2l "v1") /\ ~ In "["%char (s2l "v2") /\ s2l "v1" <> s2l "v2" /\
  individual_path (s2l "transcripts") (s2l "v1") (s2l "Same [v2") <>
  individual_path (s2l "transcripts") (s2l "v2") (s2l "Same").
Proof.
  assert (H1 : ~ In "["%char (s2l "v1"))
    by (intros H; vm_compute in H; repeat (destruct H as [H|H]; [discriminate H|]); exact H).
  assert (H2 : ~ In "["%char (s2l "v2"))
    by (intros H; vm_compute in H; repeat (destruct H as [H|H]; [discriminate H|]); exact H).
  assert (H3 : s2l "v1" <> s2l "v2") by discriminate.
  split; [exact H1|]. split; [exact H2|]. split; [exact H3|].
  exact (individual_path_distinct _ _ _ _ _ _ H1 H2 H3).
Defined.

(** ** [clean_vtt]: lines that change nothing *)

(** Inserting into a caption file a line that [clean_vtt] skips (a header,
    metadata, timestamp or blank line, or one whose text is empty once the
    tags are removed), or a line whose text already occurred in an earlier
    line, leaves the cleaned transcript unchanged. *)
Theorem clean_vtt_skip_line (a l b : str) (Hl : ~ In NL l)
  (Hskip : match line_text l with
           | None => True
           | Some t => In t (line_texts (split_on NL a))
           end) :
  clean_vtt (a ++ NL :: l ++ NL :: b) = clean_vtt (a ++ NL :: b).
Proof.
  unfold clean_vtt. f_equal. rewrite !clean_lines_dedup, !split_on_app.
  rewrite (split_on_no_sep NL l (existsb_eqb_notin NL l Hl)).
  unfold line_texts. rewrite !flat_map_app. fold (line_texts (split_on NL a)).
  fold (line_texts (split_on NL b)). cbn [flat_map app].
  rewrite !dedup_from_app. f_equal. rewrite app_nil_r.
  destruct (line_text l) as [t|]; [|reflexivity].
  cbn [app dedup_from]. rewrite !app_nil_r, (proj2 (existsb_str t _) Hskip).
  cbn [app]. apply dedup_from_ext. intros x. cbn [In].
  split; [intros [<-|H]; [exact Hskip | exact H] | intros H; right; exact H].
Qed.

Lemma clean_vtt_skip_line_witness :
  ~ In NL (s2l "Kind: captions") /\
  clean_vtt (s2l "WEBVTT" ++ NL :: s2l "Kind: captions" ++ NL :: s2l "hello") =
  clean_vtt (s2l "WEBVTT" ++ NL :: s2l "hello").
Proof.
  assert (H : ~ In NL (s2l "Kind: captions"))
    by (intros H; vm_compute in H; repeat (destruct H as [H|H]; [discriminate H|]); exact H).
  split; [exact H|]. exact (clean_vtt_skip_line _ _ _ H I).
Defined.

(** ** [main]: removing the scratch directory *)

Lemma video_no_remove (output_dir : str) (idx : nat) (v : str * str) (r : option str) :
  filter is_remove_dir (video_effects output_dir idx v r) = [].
Proof.
  unfold video_effects. destruct (idx mod 10 =? 0); destruct r as [[|c t]|]; reflexivity.
Qed.

Lemma loop_no_remove (output_dir : str) (vs : list (str * str)) :
  forall idx rs, filter is_remove_dir (loop_effects output_dir idx vs rs) = [].
Proof.
  induction vs as [|v vs IH]; intros idx rs; [reflexivity|].
  destruct rs as [|r rs]; [reflexivity|].
  change (loop_effects output_dir idx (v :: vs) (r :: rs))
    with (video_effects output_dir idx v r ++ loop_effects output_dir (S idx) vs rs).
  rewrite filter_app, video_no_remove, IH. reflexivity.
Qed.

Lemma main_effects_remove (args : cli_args) now vs rs d :
  filter is_remove_dir (main_effects args now vs rs d) =
  match d with [] => [RemoveDir (path_join (arg_output_dir args) (s2l ".tmp"))] | _ => [] end.
Proof.
  unfold main_effects. rewrite !filter_app, loop_no_remove.
  destruct d; cbn [filter map header_writes is_remove_dir app]; reflexivity.
Qed.

(** When the listing succeeds, the run removes the scratch directory
    [output_dir/.tmp] once, and only, when that directory is empty after
    the last video. *)
Theorem main_removes_tmp_iff_empty (args : cli_args) (w : world)
  (Hrc : returncode (w_listing w) = 0%Z) :
  filter is_remove_dir (w_effects (snd (main args w))) =
  filter is_remove_dir (w_effects w) ++
  match w_scratch (snd (main args w)) with
  | [] => [RemoveDir (path_join (arg_output_dir args) (s2l ".tmp"))]
  | _ => []
  end.
Proof.
  rewrite (main_listing_success args w Hrc). cbv zeta.
  destruct (retrieve_all (w_scratch w) (w_tools w) (parse_listing (stdout (w_listing w))))
    as [rs [d' ts']].
  cbn [snd w_effects w_scratch]. rewrite filter_app, main_effects_remove. reflexivity.
Qed.

Lemma main_removes_tmp_iff_empty_witness :
  returncode (w_listing worldB) = 0%Z /\
  filter is_remove_dir (w_effects (snd (main argsB worldB))) =
  filter is_remove_dir (w_effects worldB) ++
  match w_scratch (snd (main argsB worldB)) with
  | [] => [RemoveDir (path_join (arg_output_dir argsB) (s2l ".tmp"))]
  | _ => []
  end.
Proof.
  assert (H : returncode (w_listing worldB) = 0%Z) by reflexivity.
  split; [exact H|]. exact (main_removes_tmp_iff_empty argsB worldB H).
Defined.

Lemma write_file_keeps (n : str) (d : scratch) (f : str * str) :
  path_exists n d = true -> path_exists n (write_file d f) = true.
Proof.
  unfold path_exists, write_file. intros H. rewrite existsb_app.
  destruct (str_eqb (fst f) n) eqn:Ef; [cbn [existsb]; rewrite Ef, orb_true_r; reflexivity|].
  apply existsb_exists in H as [e [He Hn]].
  apply orb_true_intro. left. apply existsb_exists. exists e. split; [|exact Hn].
  apply filter_In. split; [exact He|]. apply str_eqb_eq in Hn. rewrite Hn.
  destruct (str_eqb n (fst f)) eqn:E; [|reflexivity].
  apply str_eqb_eq in E. rewrite E, (proj2 (str_eqb_eq (fst f) (fst f)) eq_refl) in Ef.
  discriminate.
Qed.

Lemma write_files_keeps (n : str) (fs : list (str * str)) :
  forall d, path_exists n d = true -> path_exists n (write_files d fs) = true.
Proof.
  induction fs as [|f fs IH]; intros d H; [exact H|].
  apply IH. apply write_file_keeps. exact H.
Qed.

Lemma download_keeps (video_id n : str) (run : tool_run) (d : scratch) :
  path_exists n d = true -> startswith video_id n = false ->
  path_exists n (snd (download_subtitle_pure video_id run d)) = true.
Proof.
  intros Hn Hs. destruct run as [w|w]; cbn [download_subtitle_pure snd];
    [apply write_files_keeps; exact Hn|].
  pose proof (write_files_keeps n w d Hn) as Hw. cbv zeta.
  destruct (locate_vtt video_id (write_files d w)); cbn [snd]; [|exact Hw].
  apply existsb_exists in Hw as [e [He Hne]]. apply existsb_exists.
  exists e. split; [|exact Hne]. apply filter_In. split; [exact He|].
  apply str_eqb_eq in Hne. rewrite Hne, Hs. reflexivity.
Qed.

Lemma retrieve_keeps (n : str) (vs : list (str * str)) :
  forall d ts, path_exists n d = true ->
  (forall v, In v vs -> startswith (fst v) n = false) ->
  path_exists n (fst (snd (retrieve_all d ts vs))) = true.
Proof.
  induction vs as [|v vs IH]; intros d ts Hn Hvs; [exact Hn|].
  cbn [retrieve_all]. destruct (pop_tool ts) as [run ts'].
  pose proof (download_keeps (fst v) n run d Hn (Hvs v (or_introl eq_refl))) as K.
  destruct (download_subtitle_pure (fst v) run d) as [r d']. cbn [snd] in K.
  pose proof (IH d' ts' K (fun v' H => Hvs v' (or_intror H))) as K'.
  destruct (retrieve_all d' ts' vs) as [rs [d'' ts'']]. exact K'.
Qed.

(** When the listing succeeds and the scratch directory already holds a file
    whose name starts with none of the listed video ids, that file is still
    there after the run and the scratch directory is not removed. *)
Theorem main_keeps_stray_file (args : cli_args) (w : world) (n : str)
  (Hrc : returncode (w_listing w) = 0%Z)
  (Hn : path_exists n (w_scratch w) = true)
  (Hids : forall v, In v (parse_listing (stdout (w_listing w))) -> startswith (fst v) n = false) :
  path_exists n (w_scratch (snd (main args w))) = true /\
  filter is_remove_dir (w_effects (snd (main args w))) = filter is_remove_dir (w_effects w).
Proof.
  rewrite (main_listing_success args w Hrc). cbv zeta.
  pose proof (retrieve_keeps n _ (w_scratch w) (w_tools w) Hn Hids) as K.
  destruct (retrieve_all (w_scratch w) (w_tools w) (parse_listing (stdout (w_listing w))))
    as [rs [d' ts']].
  cbn [snd fst w_effects w_scratch] in *. split; [exact K|].
  rewrite filter_app, main_effects_remove.
  destruct d' as [|f d'']; [discriminate K | apply app_nil_r].
Qed.

Lemma main_keeps_stray_file_witness :
  returncode (w_listing worldD) = 0%Z /\
  path_exists (s2l "old.part") (w_scratch worldD) = true /\
  path_exists (s2l "old.part") (w_scratch (snd (main argsB worldD))) = true /\
  filter is_remove_dir (w_effects (snd (main argsB worldD))) =
  filter is_remove_dir (w_effects worldD).
Proof.
  assert (H1 : returncode (w_listing worldD) = 0%Z) by reflexivity.
  assert (H2 : path_exists (s2l "old.part") (w_scratch worldD) = true) by reflexivity.
  assert (H3 : forall v, In v (parse_listing (stdout (w_listing worldD))) ->
                         startswith (fst v) (s2l "old.part") = false)
    by (intros v Hv; vm_compute in Hv; repeat (destruct Hv as [<-|Hv]; [reflexivity|]); destruct Hv).
  split; [exact H1|]. split; [exact H2|].
  exact (main_keeps_stray_file argsB worldD _ H1 H2 H3).
Defined.

(** ** [clean_vtt]: when the transcript is empty *)

Lemma line_texts_nil (ls : list str) :
  line_texts ls = [] <-> forall l, In l ls -> line_text l = None.
Proof.
  induction ls as [|l ls IH]; [split; [intros _ l []|reflexivity]|].
  change (line_texts (l :: ls))
    with ((match line_text l with Some t => [t] | None => [] end) ++ line_texts ls).
  destruct (line_text l) as [t|] eqn:E.
  - split; [discriminate|]. intros H. rewrite (H l (or_introl eq_refl)) in E. discriminate.
  - cbn [app]. rewrite IH. split.
    + intros H l' [<-|Hl']; [exact E | exact (H l' Hl')].
    + intros H l' Hl'. exact (H l' (or_intror Hl')).
Qed.

Lemma dedup_from_nil_nil (xs : list str) : dedup_from [] xs = [] <-> xs = [].
Proof. destruct xs as [|x xs]; [split; reflexivity | split; discriminate]. Qed.

(** [clean_vtt] returns the empty string exactly when no line of the caption
    file yields text: every line is a header, metadata, timestamp or blank
    line, or a line whose text is empty once the tags are removed. *)
Theorem clean_vtt_empty_iff (vtt_text : str) :
  clean_vtt vtt_text = [] <->
  forall l, In l (split_on NL vtt_text) -> line_text l = None.
Proof.
  rewrite <- line_texts_nil, <- dedup_from_nil_nil, <- clean_lines_dedup.
  unfold clean_vtt. split; [|intros E; rewrite E; reflexivity].
  intros J.
  destruct (join_ends is_space (s2l " ") (clean_lines vtt_text)) as [E|[c [r [Hj _]]]];
    [| exact E | rewrite Hj in J; discriminate J].
  intros t Ht. destruct (clean_lines_texts _ _ Ht) as [l [_ Hlt]].
  exact (proj2 (line_text_some l t Hlt)).
Qed.

(** ** [main]: the order of the effects *)

Lemma video_effects_kinds (output_dir : str) (idx : nat) (v : str * str) (r : option str) :
  forall e, In e (video_effects output_dir idx v r) ->
  match e with MakeDirs _ | OpenCombined _ | WriteManifest _ _ | RemoveDir _ => False | _ => True end.
Proof.
  intros e He. unfold video_effects in He. apply in_app_iff in He as [He|He].
  - destruct r as [[|c t]|]; [destruct He| |destruct He].
    destruct He as [<-|He]; [exact I|].
    apply in_map_iff in He as [x [<- _]]. exact I.
  - destruct (idx mod 10 =? 0); [destruct He as [<-|[]]; exact I | destruct He].
Qed.

Lemma loop_effects_kinds (output_dir : str) (vs : list (str * str)) :
  forall idx rs e, In e (loop_effects output_dir idx vs rs) ->
  match e with MakeDirs _ | OpenCombined _ | WriteManifest _ _ | RemoveDir _ => False | _ => True end.
Proof.
  induction vs as [|v vs IH]; intros idx rs e He; [destruct He|].
  destruct rs as [|r rs]; [destruct He|].
  change (loop_effects output_dir idx (v :: vs) (r :: rs))
    with (video_effects output_dir idx v r ++ loop_effects output_dir (S idx) vs rs) in He.
  apply in_app_iff in He as [He|He]; [exact (video_effects_kinds _ _ _ _ e He) | exact (IH _ _ e He)].
Qed.

(** When the listing succeeds, the run first creates the output directory,
    then its [.tmp] scratch directory, then opens the combined file, and
    last writes the manifest to [output_dir/_manifest.json]; in between it
    creates no directory, opens no other combined file and writes no other
    manifest. *)
Theorem main_effects_order (args : cli_args) (w : world)
  (Hrc : returncode (w_listing w) = 0%Z) :
  exists mid m,
    w_effects (snd (main args w)) =
      w_effects w ++
      [MakeDirs (arg_output_dir args);
       MakeDirs (path_join (arg_output_dir args) (s2l ".tmp"));
       OpenCombined (arg_combined_file args)] ++
      mid ++ [WriteManifest (path_join (arg_output_dir args) (s2l "_manifest.json")) m] /\
    forall e, In e mid ->
      match e with MakeDirs _ | OpenCombined _ | WriteManifest _ _ => False | _ => True end.
Proof.
  rewrite (main_listing_success args w Hrc). cbv zeta.
  destruct (retrieve_all (w_scratch w) (w_tools w) (parse_listing (stdout (w_listing w))))
    as [rs [d' ts']].
  cbn [snd w_effects]. unfold main_effects. cbv zeta.
  set (vs := parse_listing (stdout (w_listing w))).
  set (hdr := map CombinedWrite (header_writes (channel_name_of args) (List.length vs)
                                  (w_now w) (arg_channel_url args))).
  set (lp := loop_effects (arg_output_dir args) 1 vs rs).
  set (rm := match d' with [] => [RemoveDir (path_join (arg_output_dir args) (s2l ".tmp"))]
                         | _ => [] end).
  set (mf := {| channel_url := arg_channel_url args; channel_name := channel_name_of args;
                download_date := w_now w; total_videos := List.length vs;
                transcripts_downloaded := success_count (loop_state init_state vs rs);
                transcripts_failed := fail_count (loop_state init_state vs rs);
                videos := manifest_entries vs (failed_videos (loop_state init_state vs rs)) |}).
  exists (hdr ++ lp ++ rm), mf. split.
  - rewrite <- !app_assoc. reflexivity.
  - intros e He. apply in_app_iff in He as [He|He].
    + unfold hdr in He. apply in_map_iff in He as [x [<- _]]. exact I.
    + apply in_app_iff in He as [He|He].
      * pose proof (loop_effects_kinds _ _ _ _ e He) as K. destruct e; first [exact I | exact K].
      * unfold rm in He. destruct d'; [destruct He as [<-|[]]; exact I | destruct He].
Qed.

Lemma main_effects_order_witness :
  returncode (w_listing worldB) = 0%Z /\
  exists mid m,
    w_effects (snd (main argsB worldB)) =
      w_effects worldB ++
      [MakeDirs (arg_output_dir argsB);
       MakeDirs (path_join (arg_output_dir argsB) (s2l ".tmp"));
       OpenCombined (arg_combined_file argsB)] ++
      mid ++ [WriteManifest (path_join (arg_output_dir argsB) (s2l "_manifest.json")) m] /\
    forall e, In e mid ->
      match e with MakeDirs _ | OpenCombined _ | WriteManifest _ _ => False | _ => True end.
Proof.
  assert (H : returncode (w_listing worldB) = 0%Z) by reflexivity.
  split; [exact H|]. exact (main_effects_order argsB worldB H).
Defined.

(** ** [sanitize_filename]: titles it keeps *)

(** A title of at most 200 characters with none of the nine forbidden
    characters, not starting or ending with a dot or a space, is its own
    sanitized filename. *)
Theorem sanitize_filename_keeps (c : ascii) (r : str)
  (Hbad : forallb (fun x => negb (bad_char x)) (c :: r) = true)
  (Hc : dot_or_space c = false) (Hl : dot_or_space (last (c :: r) c) = false)
  (Hlen : List.length (c :: r) <= 200) :
  sanitize_filename (c :: r) = c :: r.
Proof.
  unfold sanitize_filename. cbv zeta.
  rewrite filter_all_true by (apply forallb_forall; exact Hbad).
  change (strip_by (fun c => (Ascii.eqb c "."%char || Ascii.eqb c " "%char)%bool) (c :: r))
    with (strip_by dot_or_space (c :: r)).
  rewrite (strip_by_unchanged dot_or_space c r Hc Hl).
  apply firstn_all2. exact Hlen.
Qed.

Lemma sanitize_filename_keeps_witness :
  sanitize_filename (s2l "Title one") = s2l "Title one".
Proof.
  apply (sanitize_filename_keeps "T"%char (s2l "itle one")); reflexivity || (cbn; lia).
Defined.
